(** * The anti-entropy repair subsystem of the storage node

    A shallow embedding of [storage/repair.go]: the shard repairer
    ([shardRepairer.Repair]) and the database repairer ([dbRepairer]) with
    its ledger of repair states, the candidate computation [repairTimes],
    the one-shot pass [Repair] and the polling loop [run].

    Conventions of the model.
    - A [time.Time] is the count of nanoseconds since Go's zero time, an
      unbounded [Z]; all times handled by one repairer share one location,
      so that Go's [==] on [time.Time] values produced by [Truncate] is
      equality of instants.  A [time.Duration] is an [int64] count of
      nanoseconds; its arithmetic wraps around.
    - Collaborators that live outside the file (the database, its
      namespaces, the admin client and session, the comparer, the clock)
      are records of functions over an abstract world state.
    - Calls that leave the repairer are logged in a trace, in call order.
    - The platform is linux/amd64: an [int] has 64 bits, converting a
      float that is not a number or lies outside the range of [int64]
      gives the smallest [int64], and [make] refuses a slice of more than
      [2 ^ 48] bytes. *)

From Stdlib Require Import ZArith List Lia Bool String Sorted.
From Stdlib Require SpecFloat.
From stdpp Require Import base option gmap list.
From stdpp Require Import strings pretty.
Import ListNotations.

Local Open Scope Z_scope.

(** ** Go's [int64], [time.Duration] and [time.Time] *)

Module GoTime.

Definition Time := Z.
Definition Duration := Z.

Definition minInt64 : Z := - 2 ^ 63.
Definition maxInt64 : Z := 2 ^ 63 - 1.

Definition isInt64 (z : Z) : Prop := minInt64 <= z <= maxInt64.

(** Two's complement wrap-around of a 64-bit signed result. *)
Definition wrap64 (z : Z) : Z := (z + 2 ^ 63) mod 2 ^ 64 - 2 ^ 63.

(** [d1 + d2] and [-d] on [time.Duration] (plain [int64] operators). *)
Definition dadd (d1 d2 : Duration) : Duration := wrap64 (d1 + d2).
Definition dneg (d : Duration) : Duration := wrap64 (- d).

(** [t.Add(d)]. *)
Definition Add (t : Time) (d : Duration) : Time := t + d.

(** [t.Sub(u)]: the difference, saturated to the range of a Duration. *)
Definition Sub (t u : Time) : Duration :=
  Z.max minInt64 (Z.min maxInt64 (t - u)).

(** [t.Before(u)]. *)
Definition Before (t u : Time) : bool := t <? u.

(** [t.Truncate(d)]: [t] rounded down to a multiple of [d] since the zero
    time; [t] itself when [d <= 0]. *)
Definition Truncate (t : Time) (d : Duration) : Time :=
  if d <=? 0 then t else t - t mod d.

End GoTime.
Import GoTime.

(** ** Go's [float64], as far as the repairer uses it

    The repairer converts two [int64] values to [float64], divides them and
    converts the quotient back to [int].  Each step rounds to the nearest
    value of 53 significant bits, ties to even; the values that occur are
    far from the subnormal and overflow ranges.  Floats are kept as exact
    integers or as a mantissa and a binary exponent. *)

Module Float64.

(** The integer nearest to [num / den], the even one on a tie
    ([den] positive, [num] not negative). *)
Definition nearestEven (num den : Z) : Z :=
  let q := num / den in
  let r := num mod den in
  if 2 * r <? den then q
  else if den <? 2 * r then q + 1
  else if Z.even q then q else q + 1.

(** [float64(n)] for a positive [n]: exact below [2 ^ 53], a multiple of
    [2 ^ k] above, where [k] leaves 53 bits. *)
Definition ofPos (n : Z) : Z :=
  let k := Z.log2 n - 52 in
  if k <=? 0 then n else nearestEven n (2 ^ k) * 2 ^ k.

(** [float64(n)]. *)
Definition ofInt (n : Z) : Z := if n <? 0 then - ofPos (- n) else ofPos n.

(** The quotient [p / q] of two positive floats, as mantissa and exponent:
    [l] is the integer part of its binary logarithm, and the mantissa is
    the quotient scaled into 53 bits and rounded. *)
Definition divPos (p q : Z) : Z * Z :=
  let d := Z.log2 p - Z.log2 q in
  let l := if p * 2 ^ Z.max 0 (- d) <? q * 2 ^ Z.max 0 d then d - 1 else d in
  let e := l - 52 in
  (nearestEven (p * 2 ^ Z.max 0 (- e)) (q * 2 ^ Z.max 0 e), e).

(** The integer part of the positive float of mantissa [m] and exponent
    [e]. *)
Definition truncPos (me : Z * Z) : Z :=
  let (m, e) := me in if 0 <=? e then m * 2 ^ e else m / 2 ^ (- e).

(** [int(float64(x) / float64(y))].  A division by zero gives an infinity
    or a NaN; converting one of these, or a quotient outside the range of
    [int64], is left to the implementation by the language and yields the
    smallest [int64] on amd64, which is what is modelled. *)
Definition quotToInt (x y : Z) : Z :=
  let a := ofInt x in
  let b := ofInt y in
  if b =? 0 then minInt64
  else if a =? 0 then 0
  else
    let mag := truncPos (divPos (Z.abs a) (Z.abs b)) in
    let v := if xorb (a <? 0) (b <? 0) then - mag else mag in
    if (minInt64 <=? v) && (v <=? maxInt64) then v else minInt64.

(** The same conversion through the binary64 operations of the Standard
    Library's specification of IEEE 754 arithmetic, to compare with. *)
Definition refToInt (f : SpecFloat.spec_float) : Z :=
  match f with
  | SpecFloat.S754_zero _ => 0
  | SpecFloat.S754_finite s m e =>
      let mag := if 0 <=? e then Zpos m * 2 ^ e else Zpos m / 2 ^ (- e) in
      let v := if s then - mag else mag in
      if (minInt64 <=? v) && (v <=? maxInt64) then v else minInt64
  | _ => minInt64
  end.

Definition refQuotToInt (x y : Z) : Z :=
  refToInt
    (SpecFloat.SFdiv 53 1024
       (SpecFloat.binary_normalize 53 1024 x 0 false)
       (SpecFloat.binary_normalize 53 1024 y 0 false)).

(** Operands on which the two are compared below: exact and inexact
    ones, both signs, zeros, and the ends of the range. *)
Definition samples : list (Z * Z) :=
  [ (105 * 86400000000001, 86400000000001); (14399999999999, 1);
    (30, 10); (-10, 10); (-30, 10); (3, -10); (0, 5); (5, 0); (0, 0);
    (-5, 0); (7, 2); (-7, 2); (1, 3); (2, 3);
    (maxInt64, 1); (minInt64, 1); (minInt64, -1); (maxInt64, maxInt64);
    (maxInt64, 3); (1, maxInt64);
    (9007199254740993, 1); (9007199254740995, 1); (9007199254740993, 3);
    (2 ^ 62 + 1, 2 ^ 31 + 1); (123456789012345678, 987654321);
    (- 9072000000000105, 86400000000001); (4611686018427387905, 7) ].

End Float64.

(** ** Errors *)

(** Go [error] values that occur in the file: the two package-level
    sentinels, errors handed back by collaborators, the [fmt.Errorf] wrapper
    of [repairWithTime], and the aggregate built by [xerrors.MultiError]. *)
#[warnings="-register-all"]
Inductive error : Type :=
| errNoRepairOptions
| errRepairInProgress
| errExternal (msg : string)
| errNamespace (id : string) (t : Time) (err : error)
| errMulti (errs : list error).

(** Modelled from the spec: [xerrors.MultiError] of the m3x library, which
    is imported but not part of the sources.  It collects errors in the
    order they are added, and [FinalError] is nil when it is empty and the
    aggregate of all constituents otherwise. *)
Module xerrors.
Definition MultiError := list error.
Definition NewMultiError : MultiError := [].
Definition Add (m : MultiError) (err : error) : MultiError := m ++ [err].
Definition FinalError (m : MultiError) : option error :=
  match m with
  | [] => None
  | _ :: _ => Some (errMulti m)
  end.
End xerrors.

(** How a call of a modelled function ends. *)
Inductive outcome (A : Type) : Type :=
| Returned (a : A)
| Panicked
| Diverged.
Arguments Returned {A} a.
Arguments Panicked {A}.
Arguments Diverged {A}.

(** ** The ledger *)

Inductive repairStatus : Type :=
| repairNotStarted
| repairSuccess
| repairFailed.

Definition repairStatus_eqb (a b : repairStatus) : bool :=
  match a, b with
  | repairNotStarted, repairNotStarted => true
  | repairSuccess, repairSuccess => true
  | repairFailed, repairFailed => true
  | _, _ => false
  end.

Record repairState : Type := mkRepairState {
  Status : repairStatus;
  NumFailures : Z
}.

(** The zero value a Go map read yields for a missing key. *)
Definition zeroRepairState : repairState := mkRepairState repairNotStarted 0.

(** Every failure count in the ledger is a Go [int] (64 bits wide). *)
Definition ledgerTyped (m : gmap Z repairState) : Prop :=
  forall (t : Time) (st : repairState),
    m !! t = Some st -> isInt64 (NumFailures st).

(** [retention.Options], as far as the repairer reads it. *)
Record retentionOptions : Type := mkRetentionOptions {
  BlockSize : Duration;
  RetentionPeriod : Duration;
  BufferPast : Duration
}.

(** ** The database repairer *)

Module Db.
Section DatabaseRepairer.

(** The state of everything outside the repairer, and the type of the
    shard repairer handed to the namespaces. *)
Context {World ShardRepairer : Type}.

(** A namespace owned by the node: [n.Repair(shardRepairer, t)] and
    [n.ID().String()]. *)
Record databaseNamespace : Type := mkNamespace {
  ns_Repair : ShardRepairer -> Time -> World -> option error * World;
  ns_ID : string
}.

Record database : Type := mkDatabase {
  IsBootstrapped : World -> bool;
  getOwnedNamespaces : World -> list databaseNamespace
}.

Record dbRepairer : Type := mkDbRepairer {
  db : database;
  rtopts : retentionOptions;
  shardRepairer : ShardRepairer;
  repairStates : gmap Z repairState;
  nowFn : World -> Time;
  repairInterval : Duration;
  repairTimeOffset : Duration;
  repairTimeJitter : Duration;
  repairCheckInterval : Duration;
  repairMaxRetries : Z;
  closed : bool;
  running : Z
}.

Definition needsRepair (r : dbRepairer) (t : Time) : bool :=
  match repairStates r !! t with
  | None => true
  | Some repairState =>
      repairStatus_eqb (Status repairState) repairFailed
      && (NumFailures repairState <? repairMaxRetries r)
  end.

(** The loop of [repairTimes]:
    [for t := end; !t.Before(start); t = t.Add(-blockSize)].
    [fuel] bounds the number of times the body runs. *)
Fixpoint repairTimes_loop (r : dbRepairer) (start : Time)
    (blockSize : Duration) (fuel : nat) (t : Time) (acc : list Time)
  : outcome (list Time) :=
  if Before t start then Returned acc
  else
    match fuel with
    | O => Diverged
    | S fuel' =>
        repairTimes_loop r start blockSize fuel'
          (Add t (dneg blockSize))
          (if needsRepair r t then acc ++ [t] else acc)
    end.

Definition repairTimes_start (r : dbRepairer) (w : World) : Time :=
  Truncate (Add (nowFn r w) (dneg (RetentionPeriod (rtopts r))))
           (BlockSize (rtopts r)).

Definition repairTimes_end (r : dbRepairer) (w : World) : Time :=
  Truncate (Add (Add (nowFn r w) (dneg (BufferPast (rtopts r))))
                (dneg (BlockSize (rtopts r))))
           (BlockSize (rtopts r)).

(** The capacity [repairTimes] asks of [make]:
    [int(float64(end.Sub(start)) / float64(blockSize))]. *)
Definition repairTimes_capacity (r : dbRepairer) (w : World) : Z :=
  Float64.quotToInt
    (Sub (repairTimes_end r w) (repairTimes_start r w))
    (BlockSize (rtopts r)).

(** The size of a [time.Time], in bytes, and the largest allocation the
    runtime accepts, on a 64-bit platform. *)
Definition sizeofTime : Z := 24.
Definition maxAlloc : Z := 2 ^ 48.

(** [make([]time.Time, 0, capacity)] panics when the capacity is negative
    and when the memory it needs exceeds [maxAlloc].  (Below that limit the
    allocation is taken to succeed; a machine that cannot provide the
    memory ends the process, which is outside what is modelled.) *)
Definition makePanics (capacity : Z) : bool :=
  (capacity <? 0) || (maxAlloc <? sizeofTime * capacity).

(** [repairTimes].  The loop steps by [-blockSize]; when that goes down, the
    body runs once per step from [end] down to [start], which is the fuel
    given to the loop, and when it does not, a loop that is entered never
    ends. *)
Definition repairTimes (r : dbRepairer) (w : World) : outcome (list Time) :=
  let blockSize := BlockSize (rtopts r) in
  let start := repairTimes_start r w in
  let end_ := repairTimes_end r w in
  if makePanics (repairTimes_capacity r w) then Panicked
  else
    repairTimes_loop r start blockSize
      (Z.to_nat ((end_ - start) / (- dneg blockSize) + 1)) end_ [].

(** *** Calls that leave the repairer *)

Inductive event : Type :=
| EvCompareAndSwapInt32 (old new : Z) (swapped : bool)
| EvStoreInt32 (val : Z)
| EvLoadInt32 (val : Z)
| EvNamespaceRepair (id : string) (t : Time) (err : option error).

(** The repairer, the world around it, and the calls made so far. *)
Record state : Type := mkState {
  rep : dbRepairer;
  world : World;
  trace : list event
}.

Definition set_running (v : Z) (r : dbRepairer) : dbRepairer :=
  mkDbRepairer (db r) (rtopts r) (shardRepairer r) (repairStates r)
    (nowFn r) (repairInterval r) (repairTimeOffset r) (repairTimeJitter r)
    (repairCheckInterval r) (repairMaxRetries r) (closed r) v.

Definition set_repairStates (m : gmap Z repairState) (r : dbRepairer)
  : dbRepairer :=
  mkDbRepairer (db r) (rtopts r) (shardRepairer r) m
    (nowFn r) (repairInterval r) (repairTimeOffset r) (repairTimeJitter r)
    (repairCheckInterval r) (repairMaxRetries r) (closed r) (running r).

Definition set_closed (b : bool) (r : dbRepairer) : dbRepairer :=
  mkDbRepairer (db r) (rtopts r) (shardRepairer r) (repairStates r)
    (nowFn r) (repairInterval r) (repairTimeOffset r) (repairTimeJitter r)
    (repairCheckInterval r) (repairMaxRetries r) b (running r).

Definition log (e : event) (s : state) : state :=
  mkState (rep s) (world s) (trace s ++ [e]).

(** [atomic.CompareAndSwapInt32(&r.running, old, new)]. *)
Definition CompareAndSwapInt32 (old new : Z) (s : state) : bool * state :=
  if running (rep s) =? old
  then (true, log (EvCompareAndSwapInt32 old new true)
                (mkState (set_running new (rep s)) (world s) (trace s)))
  else (false, log (EvCompareAndSwapInt32 old new false) s).

(** [atomic.StoreInt32(&r.running, val)]. *)
Definition StoreInt32 (val : Z) (s : state) : state :=
  log (EvStoreInt32 val)
    (mkState (set_running val (rep s)) (world s) (trace s)).

(** [atomic.LoadInt32(&r.running)]. *)
Definition LoadInt32 (s : state) : Z * state :=
  (running (rep s), log (EvLoadInt32 (running (rep s))) s).

Definition IsRepairing (s : state) : bool * state :=
  let '(v, s') := LoadInt32 s in (v =? 1, s').

(** *** One pass *)

(** The loop of [repairWithTime] over the snapshot of owned namespaces. *)
Fixpoint repairWithTime_loop (t : Time) (namespaces : list databaseNamespace)
    (multiErr : xerrors.MultiError) (s : state)
  : xerrors.MultiError * state :=
  match namespaces with
  | [] => (multiErr, s)
  | n :: rest =>
      let '(err, w') := ns_Repair n (shardRepairer (rep s)) t (world s) in
      let s' := log (EvNamespaceRepair (ns_ID n) t err)
                  (mkState (rep s) w' (trace s)) in
      match err with
      | Some e =>
          let detailedErr := errNamespace (ns_ID n) t e in
          repairWithTime_loop t rest (xerrors.Add multiErr detailedErr) s'
      | None => repairWithTime_loop t rest multiErr s'
      end
  end.

Definition repairWithTime (t : Time) (s : state) : option error * state :=
  let namespaces := getOwnedNamespaces (db (rep s)) (world s) in
  let '(multiErr, s') :=
    repairWithTime_loop t namespaces xerrors.NewMultiError s in
  (xerrors.FinalError multiErr, s').

(** The ledger update that follows the attempt at [repairTime];
    [NumFailures++] is an [int] increment. *)
Definition updateRepairState (repairTime : Time) (err : option error)
    (m : gmap Z repairState) : gmap Z repairState :=
  let repairState := default zeroRepairState (m !! repairTime) in
  match err with
  | None =>
      <[repairTime := mkRepairState repairSuccess (NumFailures repairState)]> m
  | Some _ =>
      <[repairTime := mkRepairState repairFailed
                        (wrap64 (NumFailures repairState + 1))]> m
  end.

(** The loop of [Repair] over the candidate times. *)
Fixpoint Repair_loop (times : list Time) (multiErr : xerrors.MultiError)
    (s : state) : xerrors.MultiError * state :=
  match times with
  | [] => (multiErr, s)
  | repairTime :: rest =>
      let '(err, s1) := repairWithTime repairTime s in
      let multiErr' :=
        match err with
        | None => multiErr
        | Some e => xerrors.Add multiErr e
        end in
      let s2 :=
        mkState (set_repairStates
                   (updateRepairState repairTime err (repairStates (rep s1)))
                   (rep s1))
                (world s1) (trace s1) in
      Repair_loop rest multiErr' s2
  end.

(** [Repair].  The deferred store runs when the body returns and when it
    panics. *)
Definition Repair (s : state) : outcome (option error) * state :=
  if negb (IsBootstrapped (db (rep s)) (world s)) then (Returned None, s)
  else
    let '(swapped, s1) := CompareAndSwapInt32 0 1 s in
    if negb swapped then (Returned (Some errRepairInProgress), s1)
    else
      match repairTimes (rep s1) (world s1) with
      | Returned times =>
          let '(multiErr, s2) :=
            Repair_loop times xerrors.NewMultiError s1 in
          (Returned (xerrors.FinalError multiErr), StoreInt32 0 s2)
      | Panicked => (Panicked, StoreInt32 0 s1)
      | Diverged => (Diverged, s1)
      end.

Definition Stop (s : state) : state :=
  mkState (set_closed true (rep s)) (world s) (trace s).

(** *** Reference traversal of a pass

    What a pass would do if it looked at no result: every candidate time
    in turn, and at each time every namespace of the snapshot taken then.
    [Repair] is compared with it below. *)

Fixpoint attemptNamespaces (sr : ShardRepairer) (t : Time)
    (namespaces : list databaseNamespace) (w : World)
  : list (string * option error) * World :=
  match namespaces with
  | [] => ([], w)
  | n :: rest =>
      let '(err, w1) := ns_Repair n sr t w in
      let '(rs, w2) := attemptNamespaces sr t rest w1 in
      ((ns_ID n, err) :: rs, w2)
  end.

Fixpoint attemptAll (d : database) (sr : ShardRepairer)
    (times : list Time) (w : World)
  : list (Time * list (string * option error)) * World :=
  match times with
  | [] => ([], w)
  | t :: rest =>
      let '(rs, w1) := attemptNamespaces sr t (getOwnedNamespaces d w) w in
      let '(all, w2) := attemptAll d sr rest w1 in
      ((t, rs) :: all, w2)
  end.

(** The calls logged for the attempts [rs] at [t]. *)
Definition nsEvents (t : Time) (rs : list (string * option error))
  : list event :=
  List.map (fun '(id, err) => EvNamespaceRepair id t err) rs.

Definition attemptEvents
    (all : list (Time * list (string * option error))) : list event :=
  List.flat_map (fun '(t, rs) => nsEvents t rs) all.

(** The detailed errors of the namespaces that failed at [t]. *)
Definition namespaceErrors (t : Time) (rs : list (string * option error))
  : xerrors.MultiError :=
  omap (fun '(id, err) => errNamespace id t <$> err) rs.

(** One aggregate per time at which some namespace failed. *)
Definition collectedErrors
    (all : list (Time * list (string * option error)))
  : xerrors.MultiError :=
  omap (fun '(t, rs) => xerrors.FinalError (namespaceErrors t rs)) all.

(** No namespace failed. *)
Definition succeeded (rs : list (string * option error)) : bool :=
  forallb (fun '(_, err) => match err with None => true | Some _ => false end)
          rs.

(** The ledger after the attempts [all], made in order. *)
Definition ledgerAfter
    (all : list (Time * list (string * option error)))
    (m : gmap Z repairState) : gmap Z repairState :=
  fold_left
    (fun m '(t, rs) =>
       updateRepairState t (xerrors.FinalError (namespaceErrors t rs)) m)
    all m.

Definition numFailuresOf (m : gmap Z repairState) (t : Time) : Z :=
  NumFailures (default zeroRepairState (m !! t)).

Definition with_running (v : Z) (s : state) : state :=
  mkState (set_running v (rep s)) (world s) (trace s).

End DatabaseRepairer.

Section RunLoop.

Context {World ShardRepairer S : Type}.

(** [r.closed] is written by [Stop] from another goroutine and the clock
    moves on its own: what one iteration of [run] reads, the flag at its
    top and the clock after the sleep, is an observation. *)
Record observation : Type := mkObservation {
  obs_closed : bool;
  obs_now : Time
}.

Inductive runEvent : Type :=
| RunSleep (d : Duration)
| RunRepairFn (intervalStart now : Time)
| RunErrorf (err : error).

(** The loop of [run], one iteration per observation; it stops when it
    reads [closed], and with the call of [repairFn] that does not
    return. *)
Fixpoint run_loop (r : @dbRepairer World ShardRepairer)
    (repairFn : S -> outcome (option error) * S)
    (obs : list observation) (curIntervalStart : Time) (s : S)
    (tr : list runEvent) : list runEvent * S :=
  match obs with
  | [] => (tr, s)
  | o :: rest =>
      if obs_closed o then (tr, s)
      else
        let tr := tr ++ [RunSleep (repairCheckInterval r)] in
        let now := obs_now o in
        let intervalStart := Truncate now (repairInterval r) in
        let target :=
          Add intervalStart
              (dadd (repairTimeOffset r) (repairTimeJitter r)) in
        if Before now target then
          run_loop r repairFn rest curIntervalStart s tr
        else if intervalStart =? curIntervalStart then
          run_loop r repairFn rest curIntervalStart s tr
        else
          let tr := tr ++ [RunRepairFn intervalStart now] in
          match repairFn s with
          | (Returned None, s') =>
              run_loop r repairFn rest intervalStart s' tr
          | (Returned (Some err), s') =>
              run_loop r repairFn rest intervalStart s'
                       (tr ++ [RunErrorf err])
          | (_, s') => (tr, s')
          end
  end.

(** [run]: [curIntervalStart] starts as the zero time. *)
Definition run (r : @dbRepairer World ShardRepairer)
    (repairFn : S -> outcome (option error) * S)
    (obs : list observation) (s : S) : list runEvent * S :=
  run_loop r repairFn obs 0 s [].

(** [Start]: the loop is spawned only for a positive repair interval. *)
Definition Start (r : @dbRepairer World ShardRepairer)
    (repairFn : S -> outcome (option error) * S)
    (obs : list observation) (s : S) : list runEvent * S :=
  if repairInterval r <=? 0 then ([], s) else run r repairFn obs s.

(** The passes a run invoked: interval start and clock reading of each. *)
Definition invocations (tr : list runEvent) : list (Time * Time) :=
  omap (fun e => match e with
                 | RunRepairFn i now => Some (i, now)
                 | _ => None
                 end) tr.

(** What is expected of one invocation [(intervalStart, now)]: [now] was
    read at one of the observations, [intervalStart] is [now] truncated
    to the repair interval, and [now] is not before the target of that
    interval. *)
Definition invocationOk (r : @dbRepairer World ShardRepairer)
    (obs : list observation) (p : Time * Time) : Prop :=
  fst p = Truncate (snd p) (repairInterval r) /\
  Add (fst p) (dadd (repairTimeOffset r) (repairTimeJitter r)) <= snd p /\
  exists o : observation, In o obs /\ snd p = obs_now o.

End RunLoop.
Arguments databaseNamespace : clear implicits.
Arguments database : clear implicits.
Arguments dbRepairer : clear implicits.
Arguments state : clear implicits.
End Db.

(** ** The shard repairer *)

Module Shard.
Section ShardRepairer.

(** Identifiers and the data of the collaborators, all opaque here. *)
Context {Host Ident ShardID LocalMetadata PeerIter Comparer Diff Options
         : Type}.

(** [repair.MetadataComparisonResult]; the two difference collections are
    interface values, nil in the zero value. *)
Record MetadataComparisonResult : Type := mkResult {
  NumSeries : Z;
  NumBlocks : Z;
  SizeDifferences : option Diff;
  ChecksumDifferences : option Diff
}.

(** [repair.MetadataComparisonResult{}]. *)
Definition emptyResult : MetadataComparisonResult := mkResult 0 0 None None.

(** The admin session: [Origin], [Replicas] and
    [FetchBlocksMetadataFromPeers(namespace, shard, start, end)]. *)
Record AdminSession : Type := mkSession {
  Origin : Host;
  Replicas : list Host;
  FetchBlocksMetadataFromPeers :
    Ident -> ShardID -> Time -> Time -> error + PeerIter
}.

(** Modelled from the spec: the signature of [FetchBlocksMetadata] of
    [databaseShard], an interface declared outside the sources; the spec
    gives its second result as an error.  The arguments are start, end,
    limit, page token, and the two include flags. *)
Record databaseShard : Type := mkShard {
  shard_ID : ShardID;
  FetchBlocksMetadata :
    Time -> Time -> Z -> Z -> bool -> bool -> LocalMetadata * option error
}.

(** The replica metadata comparer of package [repair]. *)
Record comparerOps : Type := mkComparerOps {
  NewReplicaMetadataComparer : list Host -> Options -> Comparer;
  AddLocalMetadata : Host -> LocalMetadata -> Comparer -> Comparer;
  AddPeerMetadata : PeerIter -> Comparer -> option error * Comparer;
  Compare : Comparer -> MetadataComparisonResult
}.

Record shardRepairer : Type := mkShardRepairer {
  rpopts : Options;
  DefaultAdminSession : error + AdminSession;
  comparer : comparerOps;
  blockSize : Duration
}.

(** Calls that leave [Repair], in call order. *)
Inductive event : Type :=
| EvRegisterCloser
| EvNewContext
| EvFetchLocal (start end_ : Time)
| EvCloseLocalMetadata
| EvFetchPeers (start end_ : Time)
| EvRecord (namespace : Ident) (shard : ShardID)
           (diffRes : MetadataComparisonResult)
| EvCloseContext.

(** [shardRepairer.Repair(ctx, namespace, t, shard)].  [fetchCtx.Close] is
    deferred, so it ends every path that created the context. *)
Definition Repair (r : shardRepairer) (namespace : Ident) (t : Time)
    (shard : databaseShard)
  : (MetadataComparisonResult * option error) * list event :=
  match DefaultAdminSession r with
  | inl err => ((emptyResult, Some err), [])
  | inr session =>
      let start := t in
      let end_ := Add t (blockSize r) in
      let origin := Origin session in
      let replicas := Replicas session in
      let metadata :=
        NewReplicaMetadataComparer (comparer r) replicas (rpopts r) in
      let tr := [EvRegisterCloser; EvNewContext] in
      let '(localMetadata, _) :=
        FetchBlocksMetadata shard start end_ maxInt64 0 true true in
      let metadata :=
        AddLocalMetadata (comparer r) origin localMetadata metadata in
      let tr := tr ++ [EvFetchLocal start end_; EvCloseLocalMetadata] in
      let tr := tr ++ [EvFetchPeers start end_] in
      match FetchBlocksMetadataFromPeers session namespace
              (shard_ID shard) start end_ with
      | inl err => ((emptyResult, Some err), tr ++ [EvCloseContext])
      | inr peerIter =>
          match AddPeerMetadata (comparer r) peerIter metadata with
          | (Some err, _) =>
              ((emptyResult, Some err), tr ++ [EvCloseContext])
          | (None, metadata) =>
              let metadataRes := Compare (comparer r) metadata in
              let tr := tr ++ [EvRecord namespace (shard_ID shard) metadataRes] in
              ((metadataRes, None), tr ++ [EvCloseContext])
          end
      end
  end.

(** Whether the recording function was called. *)
Definition recorded (tr : list event) : bool :=
  existsb (fun e => match e with EvRecord _ _ _ => true | _ => false end) tr.

End ShardRepairer.
Arguments MetadataComparisonResult : clear implicits.
Arguments AdminSession : clear implicits.
Arguments databaseShard : clear implicits.
Arguments comparerOps : clear implicits.
Arguments shardRepairer : clear implicits.
Arguments event : clear implicits.
End Shard.

(** [n] block starts from [t] downwards, [blockSize] apart. *)
Fixpoint blocksDown (blockSize : Z) (n : nat) (t : Z) : list Z :=
  match n with
  | O => []
  | S n' => t :: blocksDown blockSize n' (t - blockSize)
  end.

(** ** Concrete repairers used to exercise the model *)

Module Samples.

(** A node with no namespaces whose clock always reads [now]. *)
Definition quietDb : Db.database unit unit :=
  Db.mkDatabase (fun _ => true) (fun _ => []).

(** Block size 10, retention 50, buffer past 10, at most 3 retries. *)
Definition repairerAt (now : Time) (ledger : gmap Z repairState)
  : Db.dbRepairer unit unit :=
  Db.mkDbRepairer quietDb (mkRetentionOptions 10 50 10) tt ledger
    (fun _ => now) 100 10 0 1 3 false 0.

(** A ledger with one entry of each kind. *)
Definition ledger4 : gmap Z repairState :=
  <[80 := mkRepairState repairSuccess 7]>
    (<[70 := mkRepairState repairFailed 2]>
       (<[60 := mkRepairState repairFailed 3]> ∅)).

(** Two namespaces; the first fails whenever it is asked to repair the
    block at [bad]. *)
Definition nsFailsAt (bad : Time) : Db.databaseNamespace unit unit :=
  Db.mkNamespace
    (fun _ t w =>
       (if t =? bad then Some (errExternal "peers unreachable") else None, w))
    "logs".

Definition nsOk : Db.databaseNamespace unit unit :=
  Db.mkNamespace (fun _ _ w => (None, w)) "metrics".

Definition busyDb (bootstrapped : bool) : Db.database unit unit :=
  Db.mkDatabase (fun _ => bootstrapped) (fun _ => [nsFailsAt 70; nsOk]).

(** A repairer over [busyDb] at clock reading 105, with the given ledger
    and running flag, and no call made yet. *)
Definition passState (bootstrapped : bool) (ledger : gmap Z repairState)
    (flag : Z) : Db.state unit unit :=
  Db.mkState
    (Db.mkDbRepairer (busyDb bootstrapped) (mkRetentionOptions 10 50 10) tt
       ledger (fun _ => 105) 100 10 0 1 3 false flag)
    tt [].

(** A pass that always succeeds, and two series of clock readings
    for the loop of a repairer with repair interval 100 and offset 10:
    one moving forward, one stepping back from 215 to 115. *)
Definition passOk (s : unit) : outcome (option error) * unit :=
  (Returned None, s).

Definition ticksForward : list Db.observation :=
  List.map (Db.mkObservation false) [105; 112; 150; 215; 290; 311].

Definition ticksSteppingBack : list Db.observation :=
  List.map (Db.mkObservation false) [215; 115; 215].

End Samples.

(** A shard repairer over two replicas.  Metadata are lists of block sizes;
    the comparer keeps the local and the peer list and reports their
    lengths. *)
Module ShardSamples.

Definition ops
  : Shard.comparerOps string (list Z) (list Z) (list Z * list Z) unit unit :=
  Shard.mkComparerOps
    (fun _ _ => ([], []))
    (fun _ l c => (l, snd c))
    (fun p c => (None, (fst c, p)))
    (fun c => Shard.mkResult (Z.of_nat (length (fst c)))
                             (Z.of_nat (length (snd c))) None None).

Definition session (peers : error + list Z)
  : Shard.AdminSession string string Z (list Z) :=
  Shard.mkSession "node-a"%string ["node-a"%string; "node-b"%string]
    (fun _ _ _ _ => peers).

Definition repairer
    (sess : error + Shard.AdminSession string string Z (list Z))
  : Shard.shardRepairer string string Z (list Z) (list Z) (list Z * list Z)
      unit unit :=
  Shard.mkShardRepairer tt sess ops 10.

(** Shard 7, whose local fetch yields three blocks and [second]. *)
Definition shard (second : option error)
  : Shard.databaseShard Z (list Z) :=
  Shard.mkShard 7 (fun _ _ _ _ _ _ => ([4; 4; 9], second)).

End ShardSamples.

(** ** Reading the trace of the shard repairer *)

Module ShardTrace.
Section ShardTrace.

Context {Ident ShardID Diff : Type}.

(** The calls of the recording function in a trace, in order, each with
    its arguments. *)
Definition records (tr : list (Shard.event Ident ShardID Diff))
  : list (Ident * ShardID * Shard.MetadataComparisonResult Diff) :=
  omap (fun e => match e with
                 | Shard.EvRecord n sh d => Some (n, sh, d)
                 | _ => None
                 end) tr.

End ShardTrace.
End ShardTrace.

(** ** Metrics *)

(** Modelled from the spec: the metrics scope of the tally library, which
    is imported but not part of the sources.  A scope is a name prefix and
    a set of tags; [SubScope] extends the prefix, [Tagged] adds tags, new
    ones taking the place of old ones of the same name; a counter is
    identified by the prefix and tags of its scope and by its name, and the
    registry holds, for each counter, the sum of the increments given to
    it. *)
Module Tally.

Record Scope : Type := mkScope {
  prefix : string;
  tags : gmap string string
}.

Definition SubScope (name : string) (sc : Scope) : Scope :=
  mkScope (if String.eqb (prefix sc) "" then name
           else prefix sc +:+ "." +:+ name)
          (tags sc).

Definition Tagged (new : gmap string string) (sc : Scope) : Scope :=
  mkScope (prefix sc) (new ∪ tags sc).

(** [sc.Counter(name)]. *)
Definition Counter (sc : Scope) (name : string)
  : string * gmap string string * string :=
  (prefix sc, tags sc, name).

(** The sum of the increments a counter has received. *)
Definition Value (k : string * gmap string string * string)
    (reg : gmap (string * gmap string string * string) Z) : Z :=
  default 0 (reg !! k).

(** [counter.Inc(delta)]. *)
Definition Inc (k : string * gmap string string * string) (delta : Z)
    (reg : gmap (string * gmap string string * string) Z)
  : gmap (string * gmap string string * string) Z :=
  <[k := Value k reg + delta]> reg.

(** A series of increments, given in order. *)
Definition IncAll (l : list ((string * gmap string string * string) * Z))
    (reg : gmap (string * gmap string string * string) Z)
  : gmap (string * gmap string string * string) Z :=
  foldl (fun reg kv => Inc (fst kv) (snd kv) reg) reg l.

End Tally.

(** ** Recording the differences *)

Module ShardMetrics.
Section ShardMetrics.

Context {Ident LocalMetadata Diff : Type}.

(** [namespace.String()], and the [NumSeries] and [NumBlocks] methods of a
    collection of differences.  Shard identifiers are numbers. *)
Variable idString : Ident -> string.
Variable diffNumSeries : Diff -> Z.
Variable diffNumBlocks : Diff -> Z.

(** The scope of one shard of one namespace under the scope of the
    repairer; [strconv.Itoa] writes the identifier in decimal. *)
Definition shardScope (scope : Tally.Scope) (namespace : Ident)
    (shard : Shard.databaseShard Z LocalMetadata) : Tally.Scope :=
  Tally.Tagged
    (<["namespace" := idString namespace]>
       (<["shard" := pretty (Shard.shard_ID shard)]> ∅))
    scope.

Definition resultScope (resultType : string) (sc : Tally.Scope)
  : Tally.Scope :=
  Tally.Tagged (<["resultType" := resultType]> ∅) sc.

(** [shardRepairer.recordDifferences].  A nil collection of differences
    makes the method call on it panic, after the increments made before
    it. *)
Definition recordDifferences (scope : Tally.Scope) (namespace : Ident)
    (shard : Shard.databaseShard Z LocalMetadata)
    (diffRes : Shard.MetadataComparisonResult Diff)
    (reg : gmap (string * gmap string string * string) Z)
  : outcome unit * gmap (string * gmap string string * string) Z :=
  let shardScope := shardScope scope namespace shard in
  let totalScope := resultScope "total" shardScope in
  let sizeDiffScope := resultScope "sizeDiff" shardScope in
  let checksumDiffScope := resultScope "checksumDiff" shardScope in
  let reg :=
    Tally.Inc (Tally.Counter totalScope "series")
              (Shard.NumSeries diffRes) reg in
  let reg :=
    Tally.Inc (Tally.Counter totalScope "blocks")
              (Shard.NumBlocks diffRes) reg in
  match Shard.SizeDifferences diffRes with
  | None => (Panicked, reg)
  | Some sizeDifferences =>
      let reg :=
        Tally.Inc (Tally.Counter sizeDiffScope "series")
                  (diffNumSeries sizeDifferences) reg in
      let reg :=
        Tally.Inc (Tally.Counter sizeDiffScope "blocks")
                  (diffNumBlocks sizeDifferences) reg in
      match Shard.ChecksumDifferences diffRes with
      | None => (Panicked, reg)
      | Some checksumDifferences =>
          let reg :=
            Tally.Inc (Tally.Counter checksumDiffScope "series")
                      (diffNumSeries checksumDifferences) reg in
          let reg :=
            Tally.Inc (Tally.Counter checksumDiffScope "blocks")
                      (diffNumBlocks checksumDifferences) reg in
          (Returned tt, reg)
      end
  end.

(** The counters [recordDifferences] gives to, each with its increment,
    for a result whose collections of differences are [sd] and [cd]. *)
Definition increments (scope : Tally.Scope) (namespace : Ident)
    (shard : Shard.databaseShard Z LocalMetadata)
    (numSeries numBlocks : Z) (sd cd : Diff)
  : list ((string * gmap string string * string) * Z) :=
  let sc := shardScope scope namespace shard in
  [ (Tally.Counter (resultScope "total" sc) "series", numSeries);
    (Tally.Counter (resultScope "total" sc) "blocks", numBlocks);
    (Tally.Counter (resultScope "sizeDiff" sc) "series", diffNumSeries sd);
    (Tally.Counter (resultScope "sizeDiff" sc) "blocks", diffNumBlocks sd);
    (Tally.Counter (resultScope "checksumDiff" sc) "series",
     diffNumSeries cd);
    (Tally.Counter (resultScope "checksumDiff" sc) "blocks",
     diffNumBlocks cd) ].

(** What a list of increments adds to the counter [k]. *)
Definition addedTo (k : string * gmap string string * string)
    (l : list ((string * gmap string string * string) * Z)) : Z :=
  foldr (fun kv acc => if decide (fst kv = k) then snd kv + acc else acc)
        0 l.

End ShardMetrics.
End ShardMetrics.

(** ** Construction *)

Module Construct.
Section Construct.

Context {World Host Ident ShardID LocalMetadata PeerIter Comparer Diff
         Options : Type}.

(** A shard repairer together with the metrics scope it records under. *)
Record scopedShardRepairer : Type := mkScoped {
  base : Shard.shardRepairer Host Ident ShardID LocalMetadata PeerIter
           Comparer Diff Options;
  scope : Tally.Scope
}.

(** [newShardRepairer]: [hostname] is what [os.Hostname] answers,
    [metricsScope] the scope of the instrument options, and the others the
    admin client and comparer of the repair options and the block size of
    the retention options. *)
Definition newShardRepairer (hostname : error + string)
    (metricsScope : Tally.Scope) (rpopts : Options)
    (client : error + Shard.AdminSession Host Ident ShardID PeerIter)
    (cmp : Shard.comparerOps Host LocalMetadata PeerIter Comparer Diff
             Options)
    (rtopts : retentionOptions)
  : error + scopedShardRepairer :=
  match hostname with
  | inl err => inl err
  | inr hostname =>
      inr (mkScoped
             (Shard.mkShardRepairer rpopts client cmp (BlockSize rtopts))
             (Tally.Tagged (<["host" := hostname]> ∅)
                (Tally.SubScope "database.repair" metricsScope)))
  end.

(** [repair.Options], as far as the database repairer reads it. *)
Record repairOptions : Type := mkRepairOptions {
  Validate : option error;
  RepairInterval : Duration;
  RepairTimeOffset : Duration;
  RepairTimeJitter : Duration;
  RepairCheckInterval : Duration;
  RepairMaxRetries : Z
}.

(** The jitter drawn for a positive [RepairTimeJitter] from a source
    seeded with the clock reading; it is computed in [float64] and taken
    as given here. *)
Variable drawJitter : Duration -> Time -> Duration.

(** [newDatabaseRepairer].  [ropts] is what [opts.RepairOptions()] gives,
    nil or not; the arguments from [hostname] to [cmp] are what
    [newShardRepairer] reads from its surroundings and from the options. *)
Definition newDatabaseRepairer
    (database : Db.database World scopedShardRepairer)
    (nowFn : World -> Time) (rtopts : retentionOptions)
    (ropts : option repairOptions)
    (hostname : error + string) (metricsScope : Tally.Scope)
    (rpopts : Options)
    (client : error + Shard.AdminSession Host Ident ShardID PeerIter)
    (cmp : Shard.comparerOps Host LocalMetadata PeerIter Comparer Diff
             Options)
    (w : World)
  : error + Db.dbRepairer World scopedShardRepairer :=
  match ropts with
  | None => inl errNoRepairOptions
  | Some ropts =>
      match Validate ropts with
      | Some err => inl err
      | None =>
          match newShardRepairer hostname metricsScope rpopts client cmp
                  rtopts with
          | inl err => inl err
          | inr shardRepairer =>
              let jitter :=
                if 0 <? RepairTimeJitter ropts
                then drawJitter (RepairTimeJitter ropts) (nowFn w)
                else 0 in
              inr (Db.mkDbRepairer database rtopts shardRepairer ∅ nowFn
                     (RepairInterval ropts) (RepairTimeOffset ropts) jitter
                     (RepairCheckInterval ropts) (RepairMaxRetries ropts)
                     false 0)
          end
      end
  end.

End Construct.
Arguments scopedShardRepairer : clear implicits.
End Construct.

(** ** Further concrete repairers *)

Module MoreSamples.

(** A bootstrapped node over [Samples.busyDb] whose retention period (5) is
    shorter than its buffer past (20), at clock reading 105. *)
Definition shortRetention : Db.state unit unit :=
  Db.mkState
    (Db.mkDbRepairer (Samples.busyDb true) (mkRetentionOptions 10 5 20) tt
       Samples.ledger4 (fun _ => 105) 100 10 0 1 3 false 0)
    tt [].


(** Blocks of one day and a nanosecond kept for 106 blocks, at the start
    of block 200: the window runs from block 94 to block 199. *)
Definition dayBlocks : Db.dbRepairer unit unit :=
  Db.mkDbRepairer Samples.quietDb
    (mkRetentionOptions 86400000000001 (106 * 86400000000001) 0) tt ∅
    (fun _ => 200 * 86400000000001) 100 10 0 1 3 false 0.

(** A bootstrapped node that owns no namespace. *)
Definition noNamespaces : Db.state unit unit :=
  Db.mkState (Samples.repairerAt 105 Samples.ledger4) tt [].

(** A pass that always fails. *)
Definition passFails (s : unit) : outcome (option error) * unit :=
  (Returned (Some (errExternal "pass failed")), s).

(** Clock readings that end with the closed flag read as set. *)
Definition ticksThenClosed : list Db.observation :=
  Samples.ticksForward ++ [Db.mkObservation true 420; Db.mkObservation false 530].

(** A comparer that refuses an empty peer list. *)
Definition strictOps
  : Shard.comparerOps string (list Z) (list Z) (list Z * list Z) unit unit :=
  Shard.mkComparerOps
    (fun _ _ => ([], []))
    (fun _ l c => (l, snd c))
    (fun p c => match p with
                | [] => (Some (errExternal "no peer metadata"), c)
                | _ :: _ => (None, (fst c, p))
                end)
    (fun c => Shard.mkResult (Z.of_nat (length (fst c)))
                             (Z.of_nat (length (snd c))) None None).

Definition strictRepairer (peers : error + list Z)
  : Shard.shardRepairer string string Z (list Z) (list Z) (list Z * list Z)
      unit unit :=
  Shard.mkShardRepairer tt (inr (ShardSamples.session peers)) strictOps 10.

(** A result of ten series in forty blocks, with differences counted as
    numbers: [d] series in [2 * d] blocks. *)
Definition tenSeries : Shard.MetadataComparisonResult Z :=
  Shard.mkResult 10 40 (Some 2) (Some 1).

Definition hostScope : Tally.Scope :=
  Tally.Tagged (<["host" := "node-a"]> ∅)
    (Tally.SubScope "database.repair" (Tally.mkScope "" ∅)).

(** Repair options for one pass per 100, an hour of 10 and no jitter. *)
Definition dailyOptions (valid : option error)
  : Construct.repairOptions :=
  Construct.mkRepairOptions valid 100 10 0 1 3.

(** A bootstrapped node without namespaces, for a repairer that carries
    its metrics scope. *)
Definition scopedDb
  : Db.database unit
      (Construct.scopedShardRepairer string string Z (list Z) (list Z)
         (list Z * list Z) unit unit) :=
  Db.mkDatabase (fun _ => true) (fun _ => []).

(** The repairer [newDatabaseRepairer] builds on [scopedDb] at clock
    reading 105, from the given repair options and host name. *)
Definition built (ropts : option Construct.repairOptions)
    (hostname : error + string)
  : error + Db.dbRepairer unit
              (Construct.scopedShardRepairer string string Z (list Z)
                 (list Z) (list Z * list Z) unit unit) :=
  Construct.newDatabaseRepairer (fun d _ => d / 2) scopedDb (fun _ => 105)
    (mkRetentionOptions 10 50 10) ropts hostname (Tally.mkScope "" ∅) tt
    (inr (ShardSamples.session (inr [4; 9]))) ShardSamples.ops tt.

End MoreSamples.

(** * Properties *)

(** ** Arithmetic of the time model *)

Lemma wrap64_id (z : Z) : isInt64 z -> wrap64 z = z.
Proof.
  unfold isInt64, wrap64, minInt64, maxInt64. intros H.
  rewrite Z.mod_small; lia.
Qed.

Lemma dneg_opp (d : Duration) : minInt64 < d <= maxInt64 -> dneg d = - d.
Proof.
  intros H. unfold dneg. apply wrap64_id.
  unfold isInt64, minInt64, maxInt64 in *. lia.
Qed.

Lemma Truncate_pos (t : Time) (d : Duration) :
  0 < d -> Truncate t d = d * (t / d).
Proof.
  intros H. unfold Truncate.
  destruct (Z.leb_spec d 0) as [Hle|_]; [lia|].
  pose proof (Z.div_mod t d). lia.
Qed.

Lemma Truncate_aligned (t : Time) (d : Duration) :
  0 < d -> Truncate t d mod d = 0.
Proof.
  intros H. rewrite Truncate_pos by lia.
  rewrite Z.mul_comm. apply Z.mod_mul. lia.
Qed.


Lemma Truncate_mono (t u : Time) (d : Duration) :
  t <= u -> Truncate t d <= Truncate u d.
Proof.
  intros H. unfold Truncate.
  destruct (Z.leb_spec d 0) as [Hle|Hpos]; [lia|].
  pose proof (Z.div_mod t d). pose proof (Z.div_mod u d).
  pose proof (Z.div_le_mono t u d Hpos H).
  assert (d * (t / d) <= d * (u / d)) by nia. lia.
Qed.

(** ** The blocks visited by [repairTimes] *)

Lemma blocksDown_In (bs : Z) (n : nat) (t x : Z) :
  In x (blocksDown bs n t) <->
  exists i : Z, 0 <= i < Z.of_nat n /\ x = t - i * bs.
Proof.
  revert t. induction n as [|n IH]; intros t; simpl.
  - split; [tauto | intros (i & Hi & _); lia].
  - rewrite IH. split.
    + intros [<- | (i & Hi & ->)].
      * exists 0. lia.
      * exists (i + 1). lia.
    + intros (i & Hi & ->).
      destruct (Z.eq_dec i 0) as [-> | Hne].
      * left. lia.
      * right. exists (i - 1). lia.
Qed.



Lemma descending_NoDup (l : list Z) :
  StronglySorted (fun a b => b < a) l -> NoDup l.
Proof.
  induction 1 as [|a l Hl IH Ha].
  - constructor.
  - constructor; [|assumption].
    intros Hin. rewrite List.Forall_forall in Ha.
    apply list_elem_of_In in Hin. specialize (Ha a Hin). lia.
Qed.

(** ** The capacity computed in [float64] *)

(** On the sample operands the conversion agrees with the one obtained
    from the Standard Library's binary64 operations. *)
Example quotToInt_agrees_with_reference :
  forallb (fun p => Float64.quotToInt (fst p) (snd p)
                    =? Float64.refQuotToInt (fst p) (snd p))
    Float64.samples = true.
Proof. vm_compute. reflexivity. Qed.

(** A window of 105 blocks of one day and a nanosecond has the float
    quotient just below 105, so the capacity is 104. *)
Example quotToInt_rounds_down :
  Float64.quotToInt (105 * 86400000000001) 86400000000001 = 104.
Proof. vm_compute. reflexivity. Qed.

Lemma nearestEven_bounds (num den : Z) :
  0 < den ->
  num / den <= Float64.nearestEven num den <= num / den + 1.
Proof.
  intros Hden. unfold Float64.nearestEven.
  destruct (2 * (num mod den) <? den); [lia|].
  destruct (den <? 2 * (num mod den)); [lia|].
  destruct (Z.even (num / den)); lia.
Qed.

Lemma nearestEven_mono (n1 n2 den : Z) :
  0 < den -> n1 <= n2 ->
  Float64.nearestEven n1 den <= Float64.nearestEven n2 den.
Proof.
  intros Hden Hle.
  pose proof (Z.div_le_mono n1 n2 den Hden Hle) as Hq.
  destruct (Z.eq_dec (n1 / den) (n2 / den)) as [Heq|Hne].
  - assert (Hr : n1 mod den <= n2 mod den).
    { pose proof (Z.div_mod n1 den). pose proof (Z.div_mod n2 den).
      rewrite Heq in *. lia. }
    unfold Float64.nearestEven. rewrite Heq.
    destruct (Z.ltb_spec (2 * (n1 mod den)) den);
      destruct (Z.ltb_spec (2 * (n2 mod den)) den);
      destruct (Z.ltb_spec den (2 * (n1 mod den)));
      destruct (Z.ltb_spec den (2 * (n2 mod den)));
      destruct (Z.even (n2 / den)); lia.
  - pose proof (nearestEven_bounds n1 den Hden).
    pose proof (nearestEven_bounds n2 den Hden). lia.
Qed.

Lemma ofPos_bounds (n : Z) :
  0 < n -> 2 ^ Z.log2 n <= Float64.ofPos n <= 2 ^ (Z.log2 n + 1).
Proof.
  intros Hn. pose proof (Z.log2_spec n Hn) as [Hlo Hhi].
  replace (Z.succ (Z.log2 n)) with (Z.log2 n + 1) in Hhi by lia.
  unfold Float64.ofPos.
  destruct (Z.leb_spec (Z.log2 n - 52) 0) as [Hk|Hk]; [lia|].
  set (k := Z.log2 n - 52) in *.
  assert (Hpk : 0 < 2 ^ k) by (apply Z.pow_pos_nonneg; lia).
  pose proof (nearestEven_bounds n (2 ^ k) Hpk) as [Hb1 Hb2].
  assert (H52 : 2 ^ Z.log2 n = 2 ^ 52 * 2 ^ k).
  { replace (Z.log2 n) with (52 + k) by lia. apply Z.pow_add_r; lia. }
  assert (H53 : 2 ^ (Z.log2 n + 1) = 2 ^ 53 * 2 ^ k).
  { replace (Z.log2 n + 1) with (53 + k) by lia. apply Z.pow_add_r; lia. }
  assert (Hq1 : 2 ^ 52 <= n / 2 ^ k).
  { apply Z.div_le_lower_bound; lia. }
  assert (Hq2 : n / 2 ^ k < 2 ^ 53).
  { apply Z.div_lt_upper_bound; lia. }
  rewrite H52, H53. split.
  - apply Z.mul_le_mono_nonneg_r; lia.
  - apply Z.mul_le_mono_nonneg_r; lia.
Qed.

Lemma ofPos_mono (n1 n2 : Z) :
  0 < n1 -> n1 <= n2 -> Float64.ofPos n1 <= Float64.ofPos n2.
Proof.
  intros H1 Hle.
  pose proof (Z.log2_le_mono n1 n2 Hle) as Hlog.
  destruct (Z.eq_dec (Z.log2 n1) (Z.log2 n2)) as [Heq|Hne].
  - unfold Float64.ofPos. rewrite Heq.
    destruct (Z.leb_spec (Z.log2 n2 - 52) 0) as [Hk|Hk]; [lia|].
    assert (Hpk : 0 < 2 ^ (Z.log2 n2 - 52)) by (apply Z.pow_pos_nonneg; lia).
    apply Z.mul_le_mono_nonneg_r; [lia|].
    apply nearestEven_mono; lia.
  - pose proof (ofPos_bounds n1 H1) as [_ Hhi].
    pose proof (ofPos_bounds n2 ltac:(lia)) as [Hlo _].
    assert (2 ^ (Z.log2 n1 + 1) <= 2 ^ Z.log2 n2).
    { apply Z.pow_le_mono_r; [lia|]. lia. }
    lia.
Qed.

Lemma ofPos_pos (n : Z) : 0 < n -> 0 < Float64.ofPos n.
Proof.
  intros Hn. pose proof (ofPos_bounds n Hn) as [Hlo _].
  assert (0 < 2 ^ Z.log2 n).
  { apply Z.pow_pos_nonneg; [lia|]. apply Z.log2_nonneg. }
  lia.
Qed.

Lemma divPos_trunc_ge_1 (p q : Z) :
  0 < q -> q <= p -> 1 <= Float64.truncPos (Float64.divPos p q).
Proof.
  intros Hq Hle. assert (Hp : 0 < p) by lia.
  pose proof (Z.log2_spec p Hp) as [Hplo Hphi].
  pose proof (Z.log2_spec q Hq) as [Hqlo Hqhi].
  pose proof (Z.log2_le_mono q p Hle) as Hlog.
  pose proof (Z.log2_nonneg q) as Hq0.
  unfold Float64.divPos.
  set (d := Z.log2 p - Z.log2 q).
  assert (Hd : 0 <= d) by (unfold d; lia).
  rewrite (Z.max_l 0 (- d)) by lia. rewrite (Z.max_r 0 d) by lia.
  rewrite Z.pow_0_r, Z.mul_1_r.
  set (l := if p <? q * 2 ^ d then d - 1 else d).
  assert (Hl : 0 <= l /\ 2 ^ l * q <= p).
  { unfold l. destruct (Z.ltb_spec p (q * 2 ^ d)) as [Hlt|Hge].
    - assert (Hd1 : 1 <= d).
      { destruct (Z.eq_dec d 0) as [H0|]; [|lia].
        rewrite H0, Z.pow_0_r in Hlt. lia. }
      split; [lia|].
      assert (Hpow : 2 ^ (d - 1) * 2 ^ Z.succ (Z.log2 q) = 2 ^ Z.log2 p).
      { rewrite <- Z.pow_add_r by lia. f_equal. unfold d. lia. }
      assert (0 < 2 ^ (d - 1)) by (apply Z.pow_pos_nonneg; lia).
      nia.
    - split; [lia|]. lia. }
  destruct Hl as [Hl0 HF]. clearbody l. clear d Hd.
  assert (Hpl : 0 < 2 ^ l) by (apply Z.pow_pos_nonneg; lia).
  unfold Float64.truncPos.
  destruct (Z.leb_spec 0 (l - 52)) as [He|He].
  - (* e >= 0 *)
    rewrite (Z.max_l 0 (- (l - 52))) by lia.
    rewrite (Z.max_r 0 (l - 52)) by lia.
    rewrite Z.pow_0_r, Z.mul_1_r.
    assert (Hpe : 0 < 2 ^ (l - 52)) by (apply Z.pow_pos_nonneg; lia).
    assert (Hden : 0 < q * 2 ^ (l - 52)) by nia.
    pose proof (nearestEven_bounds p (q * 2 ^ (l - 52)) Hden) as [Hb _].
    assert (Hsplit : 2 ^ l = 2 ^ 52 * 2 ^ (l - 52)).
    { rewrite <- Z.pow_add_r by lia. f_equal. lia. }
    assert (Hm : 2 ^ 52 <= p / (q * 2 ^ (l - 52))).
    { apply Z.div_le_lower_bound; [lia|]. rewrite Hsplit in HF. nia. }
    assert (0 < 2 ^ 52) by (apply Z.pow_pos_nonneg; lia).
    nia.
  - (* e < 0 *)
    rewrite (Z.max_r 0 (- (l - 52))) by lia.
    rewrite (Z.max_l 0 (l - 52)) by lia.
    rewrite Z.pow_0_r, Z.mul_1_r.
    set (s := - (l - 52)) in *.
    assert (Hps : 0 < 2 ^ s) by (apply Z.pow_pos_nonneg; unfold s; lia).
    pose proof (nearestEven_bounds (p * 2 ^ s) q Hq) as [Hb _].
    assert (Hsplit : 2 ^ 52 = 2 ^ l * 2 ^ s).
    { rewrite <- Z.pow_add_r by (unfold s; lia). f_equal. unfold s. lia. }
    assert (Hm : 2 ^ 52 <= p * 2 ^ s / q).
    { apply Z.div_le_lower_bound; [lia|]. rewrite Hsplit. nia. }
    apply Z.div_le_lower_bound; [lia|].
    assert (2 ^ s <= 2 ^ 52) by (rewrite Hsplit; nia).
    lia.
Qed.

Lemma quotToInt_inverted (x b : Z) :
  0 < b -> x <= - b -> Float64.quotToInt x b < 0.
Proof.
  intros Hb Hx. unfold Float64.quotToInt, Float64.ofInt.
  destruct (Z.ltb_spec x 0) as [_|]; [|lia].
  destruct (Z.ltb_spec b 0) as [|_]; [lia|].
  pose proof (ofPos_pos b Hb) as Hpb.
  pose proof (ofPos_mono b (- x) Hb ltac:(lia)) as Hmono.
  destruct (Z.eqb_spec (Float64.ofPos b) 0) as [|_]; [lia|].
  destruct (Z.eqb_spec (- Float64.ofPos (- x)) 0) as [|_]; [lia|].
  destruct (Z.ltb_spec (- Float64.ofPos (- x)) 0) as [_|]; [|lia].
  destruct (Z.ltb_spec (Float64.ofPos b) 0) as [|_]; [lia|].
  cbn [xorb].
  rewrite Z.abs_neq by lia. rewrite Z.opp_involutive.
  rewrite Z.abs_eq by lia.
  pose proof (divPos_trunc_ge_1 (Float64.ofPos (- x)) (Float64.ofPos b)
                Hpb Hmono) as Hmag.
  destruct (_ && _); [lia|]. unfold minInt64. lia.
Qed.

Lemma nearestEven_exact (k den : Z) :
  0 < den -> Float64.nearestEven (k * den) den = k.
Proof.
  intros Hd. unfold Float64.nearestEven.
  rewrite Z.div_mul, Z.mod_mul by lia.
  destruct (Z.ltb_spec (2 * 0) den); [reflexivity|lia].
Qed.

Lemma ofPos_small (n : Z) : 0 <= n < 2 ^ 53 -> Float64.ofPos n = n.
Proof.
  intros Hn. unfold Float64.ofPos.
  assert (Z.log2 n < 53).
  { destruct (Z.eq_dec n 0) as [->|]; [simpl; lia|].
    apply Z.log2_lt_pow2; lia. }
  destruct (Z.leb_spec (Z.log2 n - 52) 0); [reflexivity|lia].
Qed.

Lemma quotToInt_exact (k b : Z) :
  0 < b -> 0 <= k -> k * b < 2 ^ 53 ->
  Float64.quotToInt (k * b) b = k.
Proof.
  intros Hb Hk Hlt. unfold Float64.quotToInt, Float64.ofInt.
  destruct (Z.ltb_spec b 0); [lia|].
  destruct (Z.ltb_spec (k * b) 0); [nia|].
  pose proof (ofPos_pos b Hb) as Hbpos.
  destruct (Z.eqb_spec (Float64.ofPos b) 0); [lia|].
  rewrite (ofPos_small (k * b)) by nia.
  destruct (Z.eqb_spec (k * b) 0) as [Hz|Hnz]; [nia|].
  assert (Hk1 : 1 <= k) by nia.
  assert (Hbs : b < 2 ^ 53) by nia.
  rewrite (ofPos_small b) by lia.
  destruct (Z.ltb_spec (k * b) 0); [lia|].
  destruct (Z.ltb_spec b 0); [lia|]. simpl xorb. cbv iota.
  rewrite !Z.abs_eq by lia.
  assert (Hmag : Float64.truncPos (Float64.divPos (k * b) b) = k).
  { unfold Float64.divPos, Float64.truncPos.
    set (d := Z.log2 (k * b) - Z.log2 b).
    assert (Hd : d <= 52).
    { assert (Z.log2 (k * b) < 53) by (apply Z.log2_lt_pow2; lia).
      pose proof (Z.log2_nonneg b). lia. }
    set (l := if _ <? _ then d - 1 else d).
    assert (Hl : l <= 52) by (unfold l; destruct (_ <? _); lia).
    clearbody l. 
    rewrite (Z.max_r 0 (- (l - 52))) by lia.
    rewrite (Z.max_l 0 (l - 52)) by lia.
    rewrite Z.pow_0_r, Z.mul_1_r.
    replace (k * b * 2 ^ (- (l - 52))) with (k * 2 ^ (- (l - 52)) * b) by ring.
    rewrite nearestEven_exact by lia.
    assert (0 < 2 ^ (- (l - 52))) by (apply Z.pow_pos_nonneg; lia).
    destruct (Z.leb_spec 0 (l - 52)).
    - replace (l - 52) with 0 by lia. simpl. lia.
    - apply Z.div_mul. lia. }
  rewrite Hmag.
  destruct (Z.leb_spec minInt64 k); [|unfold minInt64 in *; lia].
  destruct (Z.leb_spec k maxInt64); [reflexivity|].
  unfold maxInt64 in *. nia.
Qed.

Section RepairTimesFacts.

Context {World ShardRepairer : Type}.
Implicit Types (r : Db.dbRepairer World ShardRepairer) (w : World).

Lemma repairTimes_loop_eq r (start : Time) (bs : Duration) :
  0 < bs <= maxInt64 ->
  forall (fuel : nat) (t : Time) (acc : list Time),
    t - start < Z.of_nat fuel * bs ->
    Db.repairTimes_loop r start bs fuel t acc =
    Returned (acc ++ List.filter (Db.needsRepair r)
                (blocksDown bs (Z.to_nat ((t - start) / bs + 1)) t)).
Proof.
  intros Hbs.
  assert (Hneg : dneg bs = - bs).
  { apply dneg_opp. unfold minInt64. lia. }
  induction fuel as [|fuel IH]; intros t acc Hfuel; simpl;
    unfold Before; destruct (Z.ltb_spec t start) as [Hlt|Hge].
  - assert ((t - start) / bs < 0) by (apply Z.div_lt_upper_bound; lia).
    replace (Z.to_nat ((t - start) / bs + 1)) with O by lia.
    simpl. now rewrite app_nil_r.
  - lia.
  - assert ((t - start) / bs < 0) by (apply Z.div_lt_upper_bound; lia).
    replace (Z.to_nat ((t - start) / bs + 1)) with O by lia.
    simpl. now rewrite app_nil_r.
  - assert (Hq : 0 <= (t - start) / bs) by (apply Z.div_pos; lia).
    assert (Hstep : (t - bs - start) / bs = (t - start) / bs - 1).
    { replace (t - bs - start) with ((t - start) + (-1) * bs) by lia.
      rewrite Z.div_add by lia. lia. }
    replace (Z.to_nat ((t - start) / bs + 1))
      with (S (Z.to_nat ((t - bs - start) / bs + 1))) by lia.
    unfold Add. rewrite Hneg. simpl blocksDown. simpl List.filter.
    replace (t + - bs) with (t - bs) by lia.
    rewrite IH by lia.
    destruct (Db.needsRepair r t); [|reflexivity].
    now rewrite <- app_assoc.
Qed.

End RepairTimesFacts.

(** ** [needsRepair] *)

Section NeedsRepairFacts.

Context {World ShardRepairer : Type}.
Implicit Types (r : Db.dbRepairer World ShardRepairer).

(** C3.  A timestamp without ledger entry needs repair; one whose entry is
    Failed needs repair while its failure count is below
    [repairMaxRetries] and no longer once the count has reached or passed
    it; one whose entry is Success never does, whatever its count. *)
Theorem needsRepair_spec r (t : Time) :
  (Db.repairStates r !! t = None -> Db.needsRepair r t = true) /\
  (forall n : Z,
      Db.repairStates r !! t = Some (mkRepairState repairFailed n) ->
      n < Db.repairMaxRetries r -> Db.needsRepair r t = true) /\
  (forall n : Z,
      Db.repairStates r !! t = Some (mkRepairState repairFailed n) ->
      Db.repairMaxRetries r <= n -> Db.needsRepair r t = false) /\
  (forall n : Z,
      Db.repairStates r !! t = Some (mkRepairState repairSuccess n) ->
      Db.needsRepair r t = false).
Proof.
  unfold Db.needsRepair. repeat split.
  - intros ->. reflexivity.
  - intros n -> Hn. simpl. apply Z.ltb_lt. exact Hn.
  - intros n -> Hn. simpl. apply Z.ltb_ge. exact Hn.
  - intros n ->. reflexivity.
Qed.

End NeedsRepairFacts.

Lemma needsRepair_spec_witness :
  Db.needsRepair (Samples.repairerAt 105 Samples.ledger4) 50 = true /\
  Db.needsRepair (Samples.repairerAt 105 Samples.ledger4) 70 = true /\
  Db.needsRepair (Samples.repairerAt 105 Samples.ledger4) 60 = false /\
  Db.needsRepair (Samples.repairerAt 105 Samples.ledger4) 80 = false.
Proof.
  split; [|split; [|split]].
  - apply (proj1 (needsRepair_spec
                    (Samples.repairerAt 105 Samples.ledger4) 50)).
    reflexivity.
  - apply (proj1 (proj2 (needsRepair_spec
                    (Samples.repairerAt 105 Samples.ledger4) 70)) 2).
    + reflexivity.
    + simpl. lia.
  - apply (proj1 (proj2 (proj2 (needsRepair_spec
                    (Samples.repairerAt 105 Samples.ledger4) 60))) 3).
    + reflexivity.
    + simpl. lia.
  - apply (proj2 (proj2 (proj2 (needsRepair_spec
                    (Samples.repairerAt 105 Samples.ledger4) 80))) 7).
    reflexivity.
Defined.

(** ** [repairTimes] *)

Section RepairTimesSpec.

Context {World ShardRepairer : Type}.
Implicit Types (r : Db.dbRepairer World ShardRepairer) (w : World).

Lemma repairTimes_window_aligned r w :
  0 < BlockSize (Db.rtopts r) <= maxInt64 ->
  Db.repairTimes_end r w < Db.repairTimes_start r w ->
  Sub (Db.repairTimes_end r w) (Db.repairTimes_start r w)
  <= - BlockSize (Db.rtopts r).
Proof.
  intros Hbs.
  set (bs := BlockSize (Db.rtopts r)) in *.
  set (start := Db.repairTimes_start r w).
  set (end_ := Db.repairTimes_end r w).
  assert (Hs : start mod bs = 0) by (apply Truncate_aligned; lia).
  assert (He : end_ mod bs = 0) by (apply Truncate_aligned; lia).
  clearbody start end_ bs. intros Hlt.
  apply Z.mod_divide in Hs as [ks Hks]; [|lia].
  apply Z.mod_divide in He as [ke Hke]; [|lia].
  assert (end_ - start <= - bs).
  { subst start end_. assert (ke < ks) by nia.
    assert (bs * (ke + 1) <= bs * ks) by (apply Z.mul_le_mono_nonneg_l; lia).
    lia. }
  unfold Sub, minInt64, maxInt64 in *. lia.
Qed.

(** An inverted window gives a negative capacity, so [make] panics. *)
Lemma makePanics_inverted r w :
  0 < BlockSize (Db.rtopts r) <= maxInt64 ->
  Db.repairTimes_end r w < Db.repairTimes_start r w ->
  Db.makePanics (Db.repairTimes_capacity r w) = true.
Proof.
  intros Hbs Hlt. unfold Db.makePanics, Db.repairTimes_capacity.
  pose proof (quotToInt_inverted _ _ (proj1 Hbs)
                (repairTimes_window_aligned r w Hbs Hlt)) as Hneg.
  apply orb_true_iff. left. apply Z.ltb_lt. exact Hneg.
Qed.

Lemma repairTimes_eq r w :
  0 < BlockSize (Db.rtopts r) <= maxInt64 ->
  Db.repairTimes r w =
  if Db.makePanics (Db.repairTimes_capacity r w) then Panicked
  else Returned
         (List.filter (Db.needsRepair r)
            (blocksDown (BlockSize (Db.rtopts r))
               (Z.to_nat ((Db.repairTimes_end r w - Db.repairTimes_start r w)
                          / BlockSize (Db.rtopts r) + 1))
               (Db.repairTimes_end r w))).
Proof.
  intros Hbs. unfold Db.repairTimes.
  destruct (Db.makePanics (Db.repairTimes_capacity r w)); [reflexivity|].
  rewrite (dneg_opp (BlockSize (Db.rtopts r))) by (unfold minInt64; lia).
  rewrite Z.opp_involutive.
  set (bs := BlockSize (Db.rtopts r)) in *.
  set (start := Db.repairTimes_start r w).
  set (end_ := Db.repairTimes_end r w).
  clearbody start end_ bs.
  rewrite repairTimes_loop_eq; [reflexivity|lia|].
  destruct (Z.ltb_spec end_ start) as [Hlt|Hge].
  - assert (0 <= Z.of_nat (Z.to_nat ((end_ - start) / bs + 1)) * bs)
      by (apply Z.mul_nonneg_nonneg; lia).
    lia.
  - rewrite Z2Nat.id by (pose proof (Z.div_pos (end_ - start) bs); lia).
    pose proof (Z.div_mod (end_ - start) bs).
    pose proof (Z.mod_pos_bound (end_ - start) bs). lia.
Qed.

(** A pass whose candidates were returned had a window that is not
    inverted. *)
Lemma repairTimes_returned_window r w :
  0 < BlockSize (Db.rtopts r) <= maxInt64 ->
  Db.makePanics (Db.repairTimes_capacity r w) = false ->
  Db.repairTimes_start r w <= Db.repairTimes_end r w.
Proof.
  intros Hbs Hcap.
  destruct (Z.ltb_spec (Db.repairTimes_end r w) (Db.repairTimes_start r w))
    as [Hlt|Hge]; [|exact Hge].
  rewrite (makePanics_inverted r w Hbs Hlt) in Hcap. discriminate.
Qed.

(** For a window that is not inverted and shorter than [2 ^ 53]
    nanoseconds the operands of the float division are exact, and so is
    the capacity. *)
Lemma repairTimes_capacity_exact r w :
  0 < BlockSize (Db.rtopts r) <= maxInt64 ->
  Db.repairTimes_start r w <= Db.repairTimes_end r w ->
  Db.repairTimes_end r w - Db.repairTimes_start r w < 2 ^ 53 ->
  Db.repairTimes_capacity r w =
  (Db.repairTimes_end r w - Db.repairTimes_start r w)
  / BlockSize (Db.rtopts r).
Proof.
  intros Hbs. unfold Db.repairTimes_capacity.
  set (bs := BlockSize (Db.rtopts r)) in *.
  set (start := Db.repairTimes_start r w).
  set (end_ := Db.repairTimes_end r w).
  assert (Hs : start mod bs = 0) by (apply Truncate_aligned; lia).
  assert (He : end_ mod bs = 0) by (apply Truncate_aligned; lia).
  clearbody start end_ bs. intros Hge Hfit.
  apply Z.mod_divide in Hs as [ks Hks]; [|lia].
  apply Z.mod_divide in He as [ke Hke]; [|lia].
  assert (Hsub : Sub end_ start = (ke - ks) * bs).
  { unfold Sub, minInt64, maxInt64. subst start end_. lia. }
  assert (Hdiv : (end_ - start) / bs = ke - ks).
  { subst start end_.
    replace (ke * bs - ks * bs) with ((ke - ks) * bs) by lia.
    apply Z.div_mul. lia. }
  rewrite Hsub, Hdiv. apply quotToInt_exact; [lia|nia|].
  subst start end_. lia.
Qed.


End RepairTimesSpec.

Section RepairTimesClaim.

Context {World ShardRepairer : Type}.
Implicit Types (r : Db.dbRepairer World ShardRepairer) (w : World).


End RepairTimesClaim.


(** The candidates at clock reading 105 with an empty ledger. *)
Example repairTimes_at_105 :
  Db.repairTimes (Samples.repairerAt 105 ∅) tt = Returned [80; 70; 60; 50].
Proof. vm_compute. reflexivity. Qed.


(** ** One pass against the reference traversal *)

Section PassFacts.

Context {World ShardRepairer : Type}.
Implicit Types (r : Db.dbRepairer World ShardRepairer) (w : World)
               (s : Db.state World ShardRepairer).

Lemma repairWithTime_loop_eq (t : Time) :
  forall (namespaces : list (Db.databaseNamespace World ShardRepairer))
         (multiErr : xerrors.MultiError) s,
    Db.repairWithTime_loop t namespaces multiErr s =
    let a := Db.attemptNamespaces (Db.shardRepairer (Db.rep s)) t
               namespaces (Db.world s) in
    (multiErr ++ Db.namespaceErrors t (fst a),
     Db.mkState (Db.rep s) (snd a) (Db.trace s ++ Db.nsEvents t (fst a))).
Proof.
  induction namespaces as [|n rest IH]; intros multiErr s; simpl.
  - rewrite !app_nil_r. destruct s; reflexivity.
  - destruct (Db.ns_Repair n (Db.shardRepairer (Db.rep s)) t (Db.world s))
      as [err w1] eqn:Hn.
    destruct (Db.attemptNamespaces (Db.shardRepairer (Db.rep s)) t rest w1)
      as [rs w2] eqn:Hrest.
    destruct err as [e|]; rewrite IH; simpl; rewrite Hrest; simpl;
      unfold Db.namespaceErrors, xerrors.Add; simpl;
      rewrite <- !app_assoc; reflexivity.
Qed.

Lemma repairWithTime_eq (t : Time) s :
  Db.repairWithTime t s =
  let a := Db.attemptNamespaces (Db.shardRepairer (Db.rep s)) t
             (Db.getOwnedNamespaces (Db.db (Db.rep s)) (Db.world s))
             (Db.world s) in
  (xerrors.FinalError (Db.namespaceErrors t (fst a)),
   Db.mkState (Db.rep s) (snd a) (Db.trace s ++ Db.nsEvents t (fst a))).
Proof.
  unfold Db.repairWithTime. rewrite repairWithTime_loop_eq. reflexivity.
Qed.

Lemma Repair_loop_eq :
  forall (times : list Time) (multiErr : xerrors.MultiError) s,
    Db.Repair_loop times multiErr s =
    let a := Db.attemptAll (Db.db (Db.rep s)) (Db.shardRepairer (Db.rep s))
               times (Db.world s) in
    (multiErr ++ Db.collectedErrors (fst a),
     Db.mkState
       (Db.set_repairStates
          (Db.ledgerAfter (fst a) (Db.repairStates (Db.rep s))) (Db.rep s))
       (snd a) (Db.trace s ++ Db.attemptEvents (fst a))).
Proof.
  induction times as [|t rest IH]; intros multiErr s; simpl.
  - rewrite !app_nil_r. destruct s as [[] ? ?]; reflexivity.
  - rewrite repairWithTime_eq. simpl.
    destruct (Db.attemptNamespaces (Db.shardRepairer (Db.rep s)) t
                (Db.getOwnedNamespaces (Db.db (Db.rep s)) (Db.world s))
                (Db.world s)) as [rs w1] eqn:Hns.
    simpl. rewrite IH. simpl.
    destruct (Db.attemptAll (Db.db (Db.rep s)) (Db.shardRepairer (Db.rep s))
                rest w1) as [all w2] eqn:Hall.
    simpl. unfold Db.collectedErrors, xerrors.Add. simpl.
    destruct (xerrors.FinalError (Db.namespaceErrors t rs)) as [e|];
      simpl; rewrite <- !app_assoc; reflexivity.
Qed.

End PassFacts.

(** ** The gate of [Repair] *)

Section RepairGate.

Context {World ShardRepairer : Type}.
Implicit Types (r : Db.dbRepairer World ShardRepairer) (w : World)
               (s : Db.state World ShardRepairer).

Lemma repairTimes_loop_set_running (v : Z) r (start : Time) (bs : Duration) :
  forall (fuel : nat) (t : Time) (acc : list Time),
    Db.repairTimes_loop (Db.set_running v r) start bs fuel t acc =
    Db.repairTimes_loop r start bs fuel t acc.
Proof.
  induction fuel as [|fuel IH]; intros t acc; simpl; [reflexivity|].
  rewrite IH. reflexivity.
Qed.

Lemma repairTimes_set_running (v : Z) r w :
  Db.repairTimes (Db.set_running v r) w = Db.repairTimes r w.
Proof.
  unfold Db.repairTimes. rewrite repairTimes_loop_set_running. reflexivity.
Qed.

(** The state a pass over [times] leaves behind, and what it returns. *)
Lemma Repair_pass_eq s (times : list Time) :
  Db.IsBootstrapped (Db.db (Db.rep s)) (Db.world s) = true ->
  Db.running (Db.rep s) = 0 ->
  Db.repairTimes (Db.rep s) (Db.world s) = Returned times ->
  Db.Repair s =
  let a := Db.attemptAll (Db.db (Db.rep s)) (Db.shardRepairer (Db.rep s))
             times (Db.world s) in
  (Returned (xerrors.FinalError (Db.collectedErrors (fst a))),
   Db.mkState
     (Db.set_running 0
        (Db.set_repairStates
           (Db.ledgerAfter (fst a) (Db.repairStates (Db.rep s)))
           (Db.rep s)))
     (snd a)
     (Db.trace s ++ [Db.EvCompareAndSwapInt32 0 1 true]
        ++ Db.attemptEvents (fst a) ++ [Db.EvStoreInt32 0])).
Proof.
  intros Hboot Hrun Htimes. unfold Db.Repair, Db.CompareAndSwapInt32.
  rewrite Hboot, Hrun. simpl.
  rewrite repairTimes_set_running, Htimes.
  rewrite Repair_loop_eq. simpl.
  unfold Db.StoreInt32, Db.log. simpl.
  rewrite <- !app_assoc. reflexivity.
Qed.

(** C8.  On a database that is not bootstrapped, [Repair] returns nil and
    leaves everything as it was: the ledger, the world, and the trace, to
    which no repair attempt is added. *)
Theorem Repair_not_bootstrapped s :
  Db.IsBootstrapped (Db.db (Db.rep s)) (Db.world s) = false ->
  Db.Repair s = (Returned None, s).
Proof.
  intros Hboot. unfold Db.Repair. rewrite Hboot. reflexivity.
Qed.

(** C10.  On a database that is not bootstrapped, [Repair] returns nil
    whatever the running flag holds, in particular when another pass is
    in flight: the result is not [errRepairInProgress], and the state
    comes back untouched, the flag unread (the result is the same for
    every value of it, and no atomic operation is logged) and
    unwritten. *)
Theorem Repair_not_bootstrapped_ignores_flag s (v : Z) :
  Db.IsBootstrapped (Db.db (Db.rep s)) (Db.world s) = false ->
  Db.Repair (Db.with_running v s) = (Returned None, Db.with_running v s) /\
  fst (Db.Repair (Db.with_running v s))
    <> Returned (Some errRepairInProgress) /\
  Db.running (Db.rep (snd (Db.Repair (Db.with_running v s)))) = v /\
  Db.trace (snd (Db.Repair (Db.with_running v s))) = Db.trace s.
Proof.
  intros Hboot.
  assert (Heq : Db.Repair (Db.with_running v s)
                = (Returned None, Db.with_running v s)).
  { unfold Db.Repair. simpl. rewrite Hboot. reflexivity. }
  rewrite Heq. simpl. repeat split. discriminate.
Qed.

(** With the flag clear the compare-and-swap succeeds and the body runs. *)
Lemma Repair_flag_clear s :
  Db.IsBootstrapped (Db.db (Db.rep s)) (Db.world s) = true ->
  Db.running (Db.rep s) = 0 ->
  Db.Repair s =
  let s1 := Db.mkState (Db.set_running 1 (Db.rep s)) (Db.world s)
              (Db.trace s ++ [Db.EvCompareAndSwapInt32 0 1 true]) in
  match Db.repairTimes (Db.rep s) (Db.world s) with
  | Returned times =>
      (Returned (xerrors.FinalError
                   (fst (Db.Repair_loop times xerrors.NewMultiError s1))),
       Db.StoreInt32 0
         (snd (Db.Repair_loop times xerrors.NewMultiError s1)))
  | Panicked => (Panicked, Db.StoreInt32 0 s1)
  | Diverged => (Diverged, s1)
  end.
Proof.
  intros Hboot Hrun.
  unfold Db.Repair, Db.CompareAndSwapInt32. rewrite Hboot, Hrun. simpl.
  rewrite repairTimes_set_running.
  destruct (Db.repairTimes (Db.rep s) (Db.world s)) as [times| |];
    try reflexivity.
  unfold Db.log. simpl.
  destruct (Db.Repair_loop times xerrors.NewMultiError _); reflexivity.
Qed.

(** C6.  On a bootstrapped database, a call made while the running flag
    is set returns [errRepairInProgress] at once: the failed
    compare-and-swap is the only call it makes, and the repairer (ledger
    and flag included) and the world are unchanged.  A call made while
    the flag is clear wins the compare-and-swap and goes on to compute
    the candidates and run the loop over them. *)
Theorem Repair_in_progress s :
  Db.IsBootstrapped (Db.db (Db.rep s)) (Db.world s) = true ->
  (Db.running (Db.rep s) <> 0 ->
   Db.Repair s =
   (Returned (Some errRepairInProgress),
    Db.mkState (Db.rep s) (Db.world s)
      (Db.trace s ++ [Db.EvCompareAndSwapInt32 0 1 false]))) /\
  (Db.running (Db.rep s) = 0 ->
   Db.Repair s =
   let s1 := Db.mkState (Db.set_running 1 (Db.rep s)) (Db.world s)
               (Db.trace s ++ [Db.EvCompareAndSwapInt32 0 1 true]) in
   match Db.repairTimes (Db.rep s) (Db.world s) with
   | Returned times =>
       (Returned (xerrors.FinalError
                    (fst (Db.Repair_loop times xerrors.NewMultiError s1))),
        Db.StoreInt32 0
          (snd (Db.Repair_loop times xerrors.NewMultiError s1)))
   | Panicked => (Panicked, Db.StoreInt32 0 s1)
   | Diverged => (Diverged, s1)
   end).
Proof.
  intros Hboot. split; intros Hrun.
  - unfold Db.Repair, Db.CompareAndSwapInt32. rewrite Hboot. simpl.
    destruct (Z.eqb_spec (Db.running (Db.rep s)) 0) as [H0|_]; [contradiction|].
    reflexivity.
  - apply Repair_flag_clear; assumption.
Qed.

(** C7.  A call that wins the gate and comes back, by returning (with or
    without an aggregate error) or by panicking, leaves the running flag
    clear, and [IsRepairing] then answers false.  With a positive block
    size the call does come back. *)
Theorem Repair_clears_running s :
  Db.IsBootstrapped (Db.db (Db.rep s)) (Db.world s) = true ->
  Db.running (Db.rep s) = 0 ->
  (fst (Db.Repair s) <> Diverged ->
   Db.running (Db.rep (snd (Db.Repair s))) = 0 /\
   fst (Db.IsRepairing (snd (Db.Repair s))) = false) /\
  (0 < BlockSize (Db.rtopts (Db.rep s)) <= maxInt64 ->
   fst (Db.Repair s) <> Diverged).
Proof.
  intros Hboot Hrun.
  rewrite (Repair_flag_clear s Hboot Hrun). simpl.
  split.
  - destruct (Db.repairTimes (Db.rep s) (Db.world s)) as [times| |];
      simpl; intros Hd; [| |congruence]; split; reflexivity.
  - intros Hbs. rewrite (repairTimes_eq _ _ Hbs).
    destruct (Db.makePanics _); simpl; discriminate.
Qed.

End RepairGate.

Lemma Repair_not_bootstrapped_witness :
  Db.Repair (Samples.passState false Samples.ledger4 0)
  = (Returned None, Samples.passState false Samples.ledger4 0).
Proof.
  apply (Repair_not_bootstrapped (Samples.passState false Samples.ledger4 0)).
  reflexivity.
Defined.

Lemma Repair_not_bootstrapped_ignores_flag_witness :
  fst (Db.Repair (Db.with_running 1 (Samples.passState false Samples.ledger4 0)))
  <> Returned (Some errRepairInProgress).
Proof.
  apply (Repair_not_bootstrapped_ignores_flag
           (Samples.passState false Samples.ledger4 0) 1).
  reflexivity.
Defined.

Lemma Repair_in_progress_witness :
  Db.Repair (Samples.passState true Samples.ledger4 1) =
  (Returned (Some errRepairInProgress),
   Db.mkState (Db.rep (Samples.passState true Samples.ledger4 1)) tt
     [Db.EvCompareAndSwapInt32 0 1 false]).
Proof.
  apply (proj1 (Repair_in_progress (Samples.passState true Samples.ledger4 1)
                  eq_refl)).
  simpl. lia.
Defined.

Lemma Repair_clears_running_witness :
  Db.running (Db.rep (snd (Db.Repair (Samples.passState true Samples.ledger4 0))))
  = 0 /\
  fst (Db.IsRepairing (snd (Db.Repair (Samples.passState true Samples.ledger4 0))))
  = false.
Proof.
  destruct (Repair_clears_running (Samples.passState true Samples.ledger4 0)
              eq_refl eq_refl) as [Hclear Hback].
  apply Hclear. apply Hback. simpl. unfold maxInt64. lia.
Defined.

(** ** What a pass attempts and what it returns *)

Section PassAttempts.

Context {World ShardRepairer : Type}.
Implicit Types (r : Db.dbRepairer World ShardRepairer) (w : World)
               (s : Db.state World ShardRepairer)
               (d : Db.database World ShardRepairer)
               (rs : list (string * option error))
               (all : list (Time * list (string * option error))).

Lemma attemptNamespaces_ids (sr : ShardRepairer) (t : Time) :
  forall (namespaces : list (Db.databaseNamespace World ShardRepairer)) w,
    List.map fst (fst (Db.attemptNamespaces sr t namespaces w))
    = List.map Db.ns_ID namespaces.
Proof.
  induction namespaces as [|n rest IH]; intros w; simpl; [reflexivity|].
  destruct (Db.ns_Repair n sr t w) as [err w1].
  specialize (IH w1).
  destruct (Db.attemptNamespaces sr t rest w1) as [rs w2].
  simpl in *. now rewrite IH.
Qed.

Lemma attemptAll_times d (sr : ShardRepairer) :
  forall (times : list Time) w,
    List.map fst (fst (Db.attemptAll d sr times w)) = times.
Proof.
  induction times as [|t rest IH]; intros w; simpl; [reflexivity|].
  destruct (Db.attemptNamespaces sr t (Db.getOwnedNamespaces d w) w)
    as [rs w1].
  specialize (IH w1).
  destruct (Db.attemptAll d sr rest w1) as [all w2].
  simpl in *. now rewrite IH.
Qed.

Lemma attemptAll_snapshots d (sr : ShardRepairer) :
  forall (times : list Time) w,
    Forall (fun a =>
              exists w' : World,
                List.map fst (snd a)
                = List.map Db.ns_ID (Db.getOwnedNamespaces d w'))
           (fst (Db.attemptAll d sr times w)).
Proof.
  induction times as [|t rest IH]; intros w; simpl; [constructor|].
  pose proof (attemptNamespaces_ids sr t (Db.getOwnedNamespaces d w) w)
    as Hids.
  destruct (Db.attemptNamespaces sr t (Db.getOwnedNamespaces d w) w)
    as [rs w1].
  specialize (IH w1).
  destruct (Db.attemptAll d sr rest w1) as [all w2].
  simpl in *. constructor; [|exact IH].
  exists w. exact Hids.
Qed.

Lemma FinalError_None (m : xerrors.MultiError) :
  xerrors.FinalError m = None <-> m = [].
Proof. destruct m; simpl; split; congruence. Qed.

Lemma namespaceErrors_nil (t : Time) rs :
  Db.namespaceErrors t rs = [] <-> Db.succeeded rs = true.
Proof.
  unfold Db.namespaceErrors, Db.succeeded.
  induction rs as [|[id [e|]] rest IH]; simpl.
  - tauto.
  - split; discriminate.
  - exact IH.
Qed.

Lemma collectedErrors_nil all :
  Db.collectedErrors all = [] <->
  Forall (fun a => Db.succeeded (snd a) = true) all.
Proof.
  unfold Db.collectedErrors.
  induction all as [|[t rs] rest IH]; simpl.
  - split; [constructor|reflexivity].
  - destruct (xerrors.FinalError (Db.namespaceErrors t rs)) as [e|] eqn:Hf.
    + split; [discriminate|].
      intros H. inversion H as [|? ? Hok _]; subst. simpl in Hok.
      apply (namespaceErrors_nil t), FinalError_None in Hok. congruence.
    + rewrite IH. apply FinalError_None, namespaceErrors_nil in Hf.
      split.
      * intros H. constructor; assumption.
      * intros H. inversion H; assumption.
Qed.

(** C5.  A pass over the candidates [times] makes exactly the calls of
    the reference traversal, which looks at no result: every candidate
    time is attempted, in order, and at each time every namespace of the
    snapshot taken then, whatever failed before.  The pass returns the
    aggregate of the collected errors, one per failed time, each the
    aggregate of the detailed errors of the namespaces that failed then;
    it is nil exactly when no attempt failed. *)
Theorem Repair_attempts_all s (times : list Time) :
  Db.IsBootstrapped (Db.db (Db.rep s)) (Db.world s) = true ->
  Db.running (Db.rep s) = 0 ->
  Db.repairTimes (Db.rep s) (Db.world s) = Returned times ->
  let all := fst (Db.attemptAll (Db.db (Db.rep s))
                    (Db.shardRepairer (Db.rep s)) times (Db.world s)) in
  fst (Db.Repair s)
  = Returned (xerrors.FinalError (Db.collectedErrors all)) /\
  Db.trace (snd (Db.Repair s))
  = Db.trace s ++ [Db.EvCompareAndSwapInt32 0 1 true]
      ++ Db.attemptEvents all ++ [Db.EvStoreInt32 0] /\
  List.map fst all = times /\
  Forall (fun a =>
            exists w' : World,
              List.map fst (snd a)
              = List.map Db.ns_ID
                  (Db.getOwnedNamespaces (Db.db (Db.rep s)) w')) all /\
  (xerrors.FinalError (Db.collectedErrors all) = None <->
   Forall (fun a => Db.succeeded (snd a) = true) all).
Proof.
  intros Hboot Hrun Htimes all.
  rewrite (Repair_pass_eq s times Hboot Hrun Htimes). simpl.
  split; [reflexivity|]. split; [reflexivity|].
  split; [apply attemptAll_times|].
  split; [apply attemptAll_snapshots|].
  rewrite FinalError_None. apply collectedErrors_nil.
Qed.

End PassAttempts.

Lemma Repair_attempts_all_witness :
  fst (Db.Repair (Samples.passState true Samples.ledger4 0))
  = Returned
      (Some (errMulti
               [errMulti
                  [errNamespace "logs" 70 (errExternal "peers unreachable")]]))
  /\ Db.trace (snd (Db.Repair (Samples.passState true Samples.ledger4 0)))
     = [Db.EvCompareAndSwapInt32 0 1 true;
        Db.EvNamespaceRepair "logs" 70 (Some (errExternal "peers unreachable"));
        Db.EvNamespaceRepair "metrics" 70 None;
        Db.EvNamespaceRepair "logs" 50 None;
        Db.EvNamespaceRepair "metrics" 50 None;
        Db.EvStoreInt32 0].
Proof.
  destruct (Repair_attempts_all (Samples.passState true Samples.ledger4 0)
              [70; 50] eq_refl eq_refl eq_refl) as (Hres & Htrace & _).
  split; [exact Hres | exact Htrace].
Defined.

(** ** The ledger across a pass *)

Section PassLedger.

Context {World ShardRepairer : Type}.
Implicit Types (r : Db.dbRepairer World ShardRepairer) (w : World)
               (s : Db.state World ShardRepairer)
               (m : gmap Z repairState)
               (rs : list (string * option error))
               (all : list (Time * list (string * option error))).

Lemma update_lookup (t : Time) (err : option error) m :
  Db.updateRepairState t err m !! t =
  Some (match err with
        | None => mkRepairState repairSuccess (Db.numFailuresOf m t)
        | Some _ =>
            mkRepairState repairFailed (wrap64 (Db.numFailuresOf m t + 1))
        end).
Proof.
  unfold Db.updateRepairState, Db.numFailuresOf.
  destruct err; apply lookup_insert_eq.
Qed.

Lemma update_lookup_ne (t t' : Time) (err : option error) m :
  t <> t' -> Db.updateRepairState t err m !! t' = m !! t'.
Proof.
  intros Hne. unfold Db.updateRepairState.
  destruct err; apply lookup_insert_ne; exact Hne.
Qed.

Lemma ledgerAfter_notin all : forall m (t : Time),
  ~ In t (List.map fst all) -> Db.ledgerAfter all m !! t = m !! t.
Proof.
  unfold Db.ledgerAfter.
  induction all as [|[t0 rs0] rest IH]; intros m t Hnot; simpl;
    [reflexivity|].
  simpl in Hnot. rewrite IH by tauto.
  apply update_lookup_ne. tauto.
Qed.

Lemma ledgerAfter_in all : forall m (t : Time) rs,
  List.NoDup (List.map fst all) ->
  In (t, rs) all ->
  Db.ledgerAfter all m !! t =
  Db.updateRepairState t (xerrors.FinalError (Db.namespaceErrors t rs)) m
    !! t.
Proof.
  induction all as [|[t0 rs0] rest IH]; intros m t rs Hnd Hin;
    [destruct Hin|].
  simpl in Hnd. inversion Hnd as [|? ? Hfresh Hnd']; subst.
  destruct Hin as [Heq|Hin].
  - injection Heq as -> ->.
    change (Db.ledgerAfter ((t, rs) :: rest) m)
      with (Db.ledgerAfter rest
              (Db.updateRepairState t
                 (xerrors.FinalError (Db.namespaceErrors t rs)) m)).
    apply ledgerAfter_notin. exact Hfresh.
  - assert (Hne : t0 <> t).
    { intros ->. apply Hfresh.
      change t with (fst (t, rs)). apply List.in_map. exact Hin. }
    change (Db.ledgerAfter ((t0, rs0) :: rest) m)
      with (Db.ledgerAfter rest
              (Db.updateRepairState t0
                 (xerrors.FinalError (Db.namespaceErrors t0 rs0)) m)).
    rewrite (IH _ t rs Hnd' Hin), !update_lookup.
    unfold Db.numFailuresOf. rewrite update_lookup_ne by exact Hne.
    reflexivity.
Qed.

(** A timestamp that needs repair has room for one more failure. *)
Lemma needsRepair_no_wrap r (t : Time) m :
  Db.needsRepair r t = true ->
  m !! t = Db.repairStates r !! t ->
  ledgerTyped (Db.repairStates r) ->
  Db.repairMaxRetries r <= maxInt64 ->
  wrap64 (Db.numFailuresOf m t + 1) = Db.numFailuresOf m t + 1.
Proof.
  intros Hneeds Hm Htyped Hmax. apply wrap64_id.
  unfold Db.numFailuresOf, Db.needsRepair in *. rewrite Hm.
  destruct (Db.repairStates r !! t) as [st|] eqn:Hst; simpl.
  - apply andb_true_iff in Hneeds as [_ Hlt]. apply Z.ltb_lt in Hlt.
    specialize (Htyped t st Hst).
    unfold isInt64, minInt64, maxInt64 in *. lia.
  - unfold isInt64, minInt64, maxInt64. lia.
Qed.

Lemma Repair_loop_app (l1 l2 : list Time) :
  forall (multiErr : xerrors.MultiError) s,
    Db.Repair_loop (l1 ++ l2) multiErr s =
    Db.Repair_loop l2 (fst (Db.Repair_loop l1 multiErr s))
                      (snd (Db.Repair_loop l1 multiErr s)).
Proof.
  induction l1 as [|t l1 IH]; intros multiErr s; simpl; [reflexivity|].
  destruct (Db.repairWithTime t s) as [err s1]. apply IH.
Qed.

Lemma numFailuresOf_update_le (t t' : Time) (err : option error) m :
  wrap64 (Db.numFailuresOf m t + 1) = Db.numFailuresOf m t + 1 ->
  Db.numFailuresOf m t'
  <= Db.numFailuresOf (Db.updateRepairState t err m) t'.
Proof.
  intros Hwrap. destruct (Z.eq_dec t t') as [<-|Hne].
  - unfold Db.numFailuresOf at 2. rewrite update_lookup.
    destruct err; simpl; lia.
  - unfold Db.numFailuresOf. rewrite update_lookup_ne by exact Hne. lia.
Qed.

End PassLedger.

Section PassLedgerClaim.

Context {World ShardRepairer : Type}.
Implicit Types (r : Db.dbRepairer World ShardRepairer) (w : World)
               (s : Db.state World ShardRepairer).

(** With a step that does not go down, the loop never leaves once it has
    entered. *)
Lemma repairTimes_loop_diverges r (start : Time) (bs : Duration) :
  0 <= dneg bs ->
  forall (fuel : nat) (t : Time) (acc : list Time),
    start <= t -> Db.repairTimes_loop r start bs fuel t acc = Diverged.
Proof.
  intros Hstep. induction fuel as [|fuel IH]; intros t acc Ht; simpl;
    unfold Before; destruct (Z.ltb_spec t start); try lia; [reflexivity|].
  apply IH. unfold Add. lia.
Qed.

(** Whatever the loop returns beyond its accumulator needs repair and is
    strictly descending. *)
Lemma repairTimes_loop_candidates r (start : Time) (bs : Duration) :
  forall (fuel : nat) (t : Time) (acc l : list Time),
    Db.repairTimes_loop r start bs fuel t acc = Returned l ->
    exists l' : list Time,
      l = acc ++ l' /\
      (forall x : Time, In x l' -> Db.needsRepair r x = true /\ x <= t) /\
      StronglySorted (fun a b => b < a) l'.
Proof.
  induction fuel as [|fuel IH]; intros t acc l; simpl;
    unfold Before; destruct (Z.ltb_spec t start) as [Hlt|Hge];
    intros Hl; try discriminate;
    try (injection Hl as <-; exists []; rewrite app_nil_r;
         split; [reflexivity|]; split; [intros x []|constructor]).
  destruct (Z.le_gt_cases 0 (dneg bs)) as [Hup|Hdown].
  { rewrite repairTimes_loop_diverges in Hl;
      [discriminate | exact Hup | unfold Add; lia]. }
  apply IH in Hl as (l' & -> & Hall & Hsorted).
  unfold Add in Hall.
  destruct (Db.needsRepair r t) eqn:Hneeds.
  - exists (t :: l'). rewrite <- app_assoc. split; [reflexivity|]. split.
    + intros x [<-|Hx]; [split; [exact Hneeds|lia]|].
      destruct (Hall x Hx). split; [assumption|lia].
    + constructor; [exact Hsorted|].
      apply List.Forall_forall. intros x Hx. destruct (Hall x Hx). lia.
  - exists l'. split; [reflexivity|]. split; [|exact Hsorted].
    intros x Hx. destruct (Hall x Hx). split; [assumption|lia].
Qed.

(** With a step that goes down, the fuel of [repairTimes] is enough. *)
Lemma repairTimes_loop_enough r (start : Time) (bs : Duration) :
  dneg bs < 0 ->
  forall (fuel : nat) (t : Time) (acc : list Time),
    t - start < Z.of_nat fuel * (- dneg bs) ->
    Db.repairTimes_loop r start bs fuel t acc <> Diverged.
Proof.
  intros Hstep. induction fuel as [|fuel IH]; intros t acc Hfuel; simpl;
    unfold Before; destruct (Z.ltb_spec t start); try discriminate; [lia|].
  apply IH. unfold Add. lia.
Qed.

(** The model reports divergence only where the loop of the source cannot
    end: it is entered, and its step does not go down. *)
Lemma repairTimes_Diverged r w :
  Db.repairTimes r w = Diverged ->
  0 <= dneg (BlockSize (Db.rtopts r)) /\
  Db.repairTimes_start r w <= Db.repairTimes_end r w.
Proof.
  unfold Db.repairTimes.
  set (bs := BlockSize (Db.rtopts r)).
  set (start := Db.repairTimes_start r w).
  set (end_ := Db.repairTimes_end r w).
  clearbody start end_ bs.
  destruct (Db.makePanics _); [discriminate|]. intros Hd. split.
  - destruct (Z.lt_ge_cases (dneg bs) 0) as [Hdown|Hup]; [|exact Hup].
    exfalso. revert Hd. apply repairTimes_loop_enough; [exact Hdown|].
    destruct (Z.lt_ge_cases (end_ - start) 0) as [Hneg|Hpos]; [nia|].
    rewrite Z2Nat.id
      by (pose proof (Z.div_pos (end_ - start) (- dneg bs)); lia).
    pose proof (Z.div_mod (end_ - start) (- dneg bs)).
    pose proof (Z.mod_pos_bound (end_ - start) (- dneg bs)). lia.
  - destruct (Z.lt_ge_cases end_ start) as [Hlt|Hge]; [|exact Hge].
    exfalso. destruct (Z.to_nat _); simpl in Hd; unfold Before in Hd;
      destruct (Z.ltb_spec end_ start); try discriminate; lia.
Qed.

(** The candidates are pairwise distinct and each needs repair, for every
    block size. *)
Lemma repairTimes_candidates r w (times : list Time) :
  Db.repairTimes r w = Returned times ->
  NoDup times /\ forall t : Time, In t times -> Db.needsRepair r t = true.
Proof.
  unfold Db.repairTimes. destruct (Db.makePanics _); [discriminate|].
  intros Hl. apply repairTimes_loop_candidates in Hl
    as (l' & -> & Hall & Hsorted). simpl.
  split; [apply descending_NoDup, Hsorted|].
  intros t Ht. apply Hall. exact Ht.
Qed.

(** C4.  Across a pass over the candidates [times], whose ledger starts
    as [before]: a time whose attempt succeeds ends with status Success
    and its failure count as it was; a time whose attempt fails ends with
    status Failed and its failure count one higher; no other entry
    changes.  After each iteration of the loop no failure count is lower
    than it was before that iteration, so none is lower at the end than
    at the start. *)
Theorem Repair_updates_ledger s (times : list Time) :
  Db.IsBootstrapped (Db.db (Db.rep s)) (Db.world s) = true ->
  Db.running (Db.rep s) = 0 ->
  Db.repairMaxRetries (Db.rep s) <= maxInt64 ->
  ledgerTyped (Db.repairStates (Db.rep s)) ->
  Db.repairTimes (Db.rep s) (Db.world s) = Returned times ->
  let all := fst (Db.attemptAll (Db.db (Db.rep s))
                    (Db.shardRepairer (Db.rep s)) times (Db.world s)) in
  let before := Db.repairStates (Db.rep s) in
  let after := Db.repairStates (Db.rep (snd (Db.Repair s))) in
  let ledgerAt (k : nat) :=
    Db.repairStates
      (Db.rep (snd (Db.Repair_loop (take k times) xerrors.NewMultiError
                      (snd (Db.CompareAndSwapInt32 0 1 s))))) in
  (forall (t : Time) (rs : list (string * option error)),
      In (t, rs) all ->
      after !! t =
      Some (if Db.succeeded rs
            then mkRepairState repairSuccess (Db.numFailuresOf before t)
            else mkRepairState repairFailed
                   (Db.numFailuresOf before t + 1))) /\
  (forall t : Time, ~ In t times -> after !! t = before !! t) /\
  ledgerAt O = before /\
  ledgerAt (length times) = after /\
  (forall (k : nat) (t : Time),
      Db.numFailuresOf (ledgerAt k) t
      <= Db.numFailuresOf (ledgerAt (S k)) t) /\
  (forall t : Time,
      Db.numFailuresOf before t <= Db.numFailuresOf after t).
Proof.
  intros Hboot Hrun Hmax Htyped Htimes all before after ledgerAt.
  destruct (repairTimes_candidates _ _ _ Htimes) as [Hnd Hneeds].
  assert (Hmap : List.map fst all = times) by apply attemptAll_times.
  assert (Hnd' : List.NoDup (List.map fst all)).
  { rewrite Hmap. apply NoDup_ListNoDup. exact Hnd. }
  assert (Hafter : after = Db.ledgerAfter all before).
  { unfold after. rewrite (Repair_pass_eq s times Hboot Hrun Htimes).
    reflexivity. }
  assert (Hentry : forall (t : Time) (rs : list (string * option error)),
             In (t, rs) all ->
             after !! t =
             Some (if Db.succeeded rs
                   then mkRepairState repairSuccess
                          (Db.numFailuresOf before t)
                   else mkRepairState repairFailed
                          (Db.numFailuresOf before t + 1))).
  { intros t rs Hin. rewrite Hafter.
    rewrite (ledgerAfter_in all before t rs Hnd' Hin), update_lookup.
    assert (Ht : In t times).
    { rewrite <- Hmap. change t with (fst (t, rs)).
      apply List.in_map. exact Hin. }
    destruct (Db.succeeded rs) eqn:Hok.
    - apply (namespaceErrors_nil t), FinalError_None in Hok.
      rewrite Hok. reflexivity.
    - destruct (xerrors.FinalError (Db.namespaceErrors t rs)) eqn:Hf.
      + rewrite (needsRepair_no_wrap (Db.rep s) t before
                   (Hneeds t Ht) eq_refl Htyped Hmax).
        reflexivity.
      + apply FinalError_None, namespaceErrors_nil in Hf. congruence. }
  assert (Hother : forall t : Time,
             ~ In t times -> after !! t = before !! t).
  { intros t Hnot. rewrite Hafter. apply ledgerAfter_notin.
    rewrite Hmap. exact Hnot. }
  assert (Hs1 : snd (Db.CompareAndSwapInt32 0 1 s)
                = Db.mkState (Db.set_running 1 (Db.rep s)) (Db.world s)
                    (Db.trace s ++ [Db.EvCompareAndSwapInt32 0 1 true])).
  { unfold Db.CompareAndSwapInt32. rewrite Hrun. reflexivity. }
  split; [exact Hentry|]. split; [exact Hother|].
  split; [unfold ledgerAt; rewrite Hs1; reflexivity|].
  split.
  { unfold ledgerAt, after. rewrite take_ge by lia.
    rewrite (Repair_flag_clear s Hboot Hrun), Htimes, Hs1. reflexivity. }
  split.
  - intros k t. unfold ledgerAt. rewrite Hs1.
    set (s1 := Db.mkState _ _ _).
    destruct (times !! k) as [tk|] eqn:Hk.
    + rewrite (take_S_r _ _ _ Hk), Repair_loop_app.
      rewrite (Repair_loop_eq (take k times)). simpl.
      rewrite repairWithTime_eq. simpl.
      apply numFailuresOf_update_le.
      apply (needsRepair_no_wrap (Db.rep s) tk).
      * apply Hneeds. apply list_elem_of_In.
        apply (list_elem_of_lookup_2 _ _ _ Hk).
      * apply ledgerAfter_notin. rewrite attemptAll_times.
        intros Hin. apply list_elem_of_In, list_elem_of_lookup_1 in Hin
          as [j Hj].
        apply lookup_take_Some in Hj as [Hj Hlt].
        pose proof (proj1 (NoDup_alt times) Hnd _ _ _ Hj Hk). lia.
      * exact Htyped.
      * exact Hmax.
    + apply lookup_ge_None in Hk.
      rewrite !take_ge by lia. lia.
  - intros t. destruct (in_dec Z.eq_dec t times) as [Hin|Hnot].
    + rewrite <- Hmap in Hin. apply List.in_map_iff in Hin
        as ([t' rs] & Heq & Hin). simpl in Heq. subst t'.
      unfold Db.numFailuresOf at 2. rewrite (Hentry t rs Hin).
      destruct (Db.succeeded rs); simpl; lia.
    + unfold Db.numFailuresOf. rewrite (Hother t Hnot). lia.
Qed.

End PassLedgerClaim.

Lemma Repair_updates_ledger_witness :
  Db.repairStates
    (Db.rep (snd (Db.Repair (Samples.passState true Samples.ledger4 0)))) !! 70
  = Some (mkRepairState repairFailed 3) /\
  Db.repairStates
    (Db.rep (snd (Db.Repair (Samples.passState true Samples.ledger4 0)))) !! 50
  = Some (mkRepairState repairSuccess 0).
Proof.
  assert (Hmax : 3 <= maxInt64) by (unfold maxInt64; lia).
  assert (Htyped : ledgerTyped Samples.ledger4).
  { intros t st H. unfold Samples.ledger4 in H.
    repeat (apply lookup_insert_Some in H as [[_ <-]|[_ H]];
            [unfold isInt64, minInt64, maxInt64; simpl; lia|]).
    rewrite lookup_empty in H. discriminate. }
  destruct (Repair_updates_ledger (Samples.passState true Samples.ledger4 0)
              [70; 50] eq_refl eq_refl Hmax Htyped eq_refl)
    as (Hentry & _).
  split.
  - exact (Hentry 70 [("logs"%string, Some (errExternal "peers unreachable"));
                      ("metrics"%string, None)] (or_introl eq_refl)).
  - exact (Hentry 50 [("logs"%string, None); ("metrics"%string, None)]
             (or_intror (or_introl eq_refl))).
Defined.

(** ** The polling loop *)

Section RunLoopFacts.

Context {World ShardRepairer S : Type}.
Variable r : Db.dbRepairer World ShardRepairer.
Variable repairFn : S -> outcome (option error) * S.

Lemma invocationOk_cons (o : Db.observation) (obs : list Db.observation)
    (L : list (Time * Time)) :
  Forall (Db.invocationOk r obs) L -> Forall (Db.invocationOk r (o :: obs)) L.
Proof.
  apply List.Forall_impl. intros p (H1 & H2 & o' & Hin & Ho').
  split; [exact H1|]. split; [exact H2|].
  exists o'. split; [right; exact Hin | exact Ho'].
Qed.

Lemma invocations_app (tr1 tr2 : list Db.runEvent) :
  Db.invocations (tr1 ++ tr2) = Db.invocations tr1 ++ Db.invocations tr2.
Proof. unfold Db.invocations. apply omap_app. Qed.

Lemma run_loop_invocations :
  forall (obs : list Db.observation) (cur : Time) (s : S)
         (tr : list Db.runEvent),
  exists L : list (Time * Time),
    Db.invocations (fst (Db.run_loop r repairFn obs cur s tr))
    = Db.invocations tr ++ L /\
    Forall (Db.invocationOk r obs) L /\
    (StronglySorted Z.le (List.map Db.obs_now obs) ->
     StronglySorted (fun a b => fst a < fst b) L /\
     ((forall o, In o obs ->
                 cur <= Truncate (Db.obs_now o) (Db.repairInterval r)) ->
      Forall (fun p => cur < fst p) L)).
Proof.
  induction obs as [|o rest IH]; intros cur s tr.
  { exists []. simpl. rewrite app_nil_r.
    repeat split; constructor. }
  assert (Hstop : forall (tr' : list Db.runEvent) (s' : S),
            Db.invocations tr' = Db.invocations tr ->
            exists L : list (Time * Time),
              Db.invocations (fst (tr', s')) = Db.invocations tr ++ L /\
              Forall (Db.invocationOk r (o :: rest)) L /\
              (StronglySorted Z.le (List.map Db.obs_now (o :: rest)) ->
               StronglySorted (fun a b => fst a < fst b) L /\
               ((forall o', In o' (o :: rest) ->
                   cur <= Truncate (Db.obs_now o') (Db.repairInterval r)) ->
                Forall (fun p => cur < fst p) L))).
  { intros tr' s' Htr. exists []. simpl. rewrite app_nil_r.
    repeat split; try constructor. exact Htr. }
  assert (Hskip : forall tr' : list Db.runEvent,
            Db.invocations tr' = Db.invocations tr ->
            exists L : list (Time * Time),
              Db.invocations
                (fst (Db.run_loop r repairFn rest cur s tr'))
              = Db.invocations tr ++ L /\
              Forall (Db.invocationOk r (o :: rest)) L /\
              (StronglySorted Z.le (List.map Db.obs_now (o :: rest)) ->
               StronglySorted (fun a b => fst a < fst b) L /\
               ((forall o', In o' (o :: rest) ->
                   cur <= Truncate (Db.obs_now o') (Db.repairInterval r)) ->
                Forall (fun p => cur < fst p) L))).
  { intros tr' Htr.
    destruct (IH cur s tr') as (L & HL & Hok & Hmono).
    exists L. rewrite HL, Htr. split; [reflexivity|].
    split; [apply invocationOk_cons; exact Hok|].
    intros Hs. simpl in Hs. inversion Hs as [|? ? Hs' _]; subst.
    destruct (Hmono Hs') as [Hsorted Hlb].
    split; [exact Hsorted|].
    intros Hcur. apply Hlb. intros o' Ho'. apply Hcur. right. exact Ho'. }
  simpl. destruct (Db.obs_closed o).
  { apply Hstop. reflexivity. }
  set (now := Db.obs_now o).
  set (i := Truncate now (Db.repairInterval r)).
  set (tr1 := tr ++ [Db.RunSleep (Db.repairCheckInterval r)]).
  assert (Htr1 : Db.invocations tr1 = Db.invocations tr).
  { unfold tr1. rewrite invocations_app. simpl. apply app_nil_r. }
  unfold Before.
  destruct (Z.ltb_spec now
              (Add i (dadd (Db.repairTimeOffset r) (Db.repairTimeJitter r))))
    as [Hearly|Hdue].
  { apply Hskip. exact Htr1. }
  destruct (Z.eqb_spec i cur) as [Hsame|Hnew].
  { apply Hskip. exact Htr1. }
  set (tr2 := tr1 ++ [Db.RunRepairFn i now]).
  assert (Htr2 : Db.invocations tr2 = Db.invocations tr ++ [(i, now)]).
  { unfold tr2. rewrite invocations_app, Htr1. reflexivity. }
  assert (Hhere : Db.invocationOk r (o :: rest) (i, now)).
  { split; [reflexivity|]. split; [exact Hdue|].
    exists o. split; [left; reflexivity | reflexivity]. }
  assert (Hgo : forall (tr' : list Db.runEvent) (s' : S),
            Db.invocations tr' = Db.invocations tr ++ [(i, now)] ->
            exists L : list (Time * Time),
              Db.invocations
                (fst (Db.run_loop r repairFn rest i s' tr'))
              = Db.invocations tr ++ L /\
              Forall (Db.invocationOk r (o :: rest)) L /\
              (StronglySorted Z.le (List.map Db.obs_now (o :: rest)) ->
               StronglySorted (fun a b => fst a < fst b) L /\
               ((forall o', In o' (o :: rest) ->
                   cur <= Truncate (Db.obs_now o') (Db.repairInterval r)) ->
                Forall (fun p => cur < fst p) L))).
  { intros tr' s' Htr'.
    destruct (IH i s' tr') as (L & HL & Hok & Hmono).
    exists ((i, now) :: L). rewrite HL, Htr', <- app_assoc.
    split; [reflexivity|].
    split; [constructor; [exact Hhere | apply invocationOk_cons, Hok]|].
    intros Hs. simpl in Hs. inversion Hs as [|? ? Hs' Hhd]; subst.
    destruct (Hmono Hs') as [Hsorted Hlb].
    assert (Hafter : Forall (fun p => i < fst p) L).
    { apply Hlb. intros o' Ho'. apply Truncate_mono.
      rewrite List.Forall_forall in Hhd. apply Hhd.
      apply List.in_map. exact Ho'. }
    split.
    - constructor; [exact Hsorted | exact Hafter].
    - intros Hcur.
      assert (Hci : cur < i).
      { specialize (Hcur o (or_introl eq_refl)). fold now i in Hcur. lia. }
      constructor; [exact Hci|].
      revert Hafter. apply List.Forall_impl. intros p Hp. lia. }
  destruct (repairFn s) as [[[err|]| |] s'].
  - apply Hgo. rewrite invocations_app, Htr2. simpl. apply app_nil_r.
  - apply Hgo. exact Htr2.
  - exists [(i, now)]. simpl. split; [exact Htr2|].
    split; [constructor; [exact Hhere | constructor]|].
    intros _. split.
    + constructor; constructor.
    + intros Hcur. constructor; [|constructor].
      specialize (Hcur o (or_introl eq_refl)). fold now i in Hcur.
      simpl. lia.
  - exists [(i, now)]. simpl. split; [exact Htr2|].
    split; [constructor; [exact Hhere | constructor]|].
    intros _. split.
    + constructor; constructor.
    + intros Hcur. constructor; [|constructor].
      specialize (Hcur o (or_introl eq_refl)). fold now i in Hcur.
      simpl. lia.
Qed.

End RunLoopFacts.

Lemma increasing_fst_NoDup (L : list (Time * Time)) :
  StronglySorted (fun a b => fst a < fst b) L -> NoDup (List.map fst L).
Proof.
  induction 1 as [|p L Hl IH Hp]; simpl.
  - constructor.
  - constructor; [|exact IH].
    intros Hin. apply list_elem_of_In, List.in_map_iff in Hin
      as (q & Heq & Hq).
    rewrite List.Forall_forall in Hp. specialize (Hp q Hq).
    unfold Time in *. lia.
Qed.

Section RunLoopClaim.

Context {World ShardRepairer S : Type}.
Implicit Types (r : Db.dbRepairer World ShardRepairer)
               (repairFn : S -> outcome (option error) * S).

(** C9, as the code has it.  Every pass the loop invokes is invoked for
    the interval start of a clock reading, at a reading at or after
    [intervalStart + (repairTimeOffset + repairTimeJitter)], the sum
    being that of two [int64] durations (it is the plain sum when that
    fits in an [int64]).  The loop remembers only the interval it handled
    last: when the clock readings never go back, the interval starts of
    the invoked passes strictly increase, so no interval start is handled
    twice. *)
Theorem run_once_per_interval r repairFn (obs : list Db.observation)
    (s : S) :
  let L := Db.invocations (fst (Db.run r repairFn obs s)) in
  Forall (Db.invocationOk r obs) L /\
  (isInt64 (Db.repairTimeOffset r + Db.repairTimeJitter r) ->
   Forall (fun p =>
             fst p + Db.repairTimeOffset r + Db.repairTimeJitter r
             <= snd p) L) /\
  (StronglySorted Z.le (List.map Db.obs_now obs) ->
   StronglySorted (fun a b => fst a < fst b) L /\
   NoDup (List.map fst L)).
Proof.
  intros L.
  destruct (run_loop_invocations r repairFn obs 0 s [])
    as (L' & HL & Hok & Hmono).
  simpl in HL. fold (Db.run r repairFn obs s) in HL.
  assert (HLL : L = L') by exact HL.
  rewrite HLL. clear HL HLL L.
  split; [exact Hok|]. split.
  - intros Hfit. revert Hok. apply List.Forall_impl.
    intros p (_ & Hdue & _). unfold Add, dadd in Hdue.
    rewrite (wrap64_id _ Hfit) in Hdue.
    unfold Time, Duration in *. lia.
  - intros Hs. destruct (Hmono Hs) as [Hsorted _].
    split; [exact Hsorted|].
    apply increasing_fst_NoDup. exact Hsorted.
Qed.

End RunLoopClaim.

Lemma run_once_per_interval_witness :
  List.map fst
    (Db.invocations
       (fst (Db.run (Samples.repairerAt 105 ∅) Samples.passOk
               Samples.ticksForward tt)))
  = [100; 200; 300] /\
  NoDup (List.map fst
           (Db.invocations
              (fst (Db.run (Samples.repairerAt 105 ∅) Samples.passOk
                      Samples.ticksForward tt)))).
Proof.
  split; [reflexivity|].
  destruct (run_once_per_interval (Samples.repairerAt 105 ∅) Samples.passOk
              Samples.ticksForward tt) as (_ & _ & Hmono).
  apply Hmono. simpl.
  repeat (constructor; [|repeat (constructor; [lia|]); constructor]).
  constructor.
Defined.

(** C9 as stated fails: the loop compares the interval start with the one
    it handled last only.  With repair interval 100 and offset 10, the
    clock readings 215, 115, 215 invoke a pass for interval start 200, one
    for 100, and a second one for 200. *)
Lemma run_same_interval_twice :
  List.map fst
    (Db.invocations
       (fst (Db.run (Samples.repairerAt 105 ∅) Samples.passOk
               Samples.ticksSteppingBack tt)))
  = [200; 100; 200] /\
  ~ NoDup (List.map fst
             (Db.invocations
                (fst (Db.run (Samples.repairerAt 105 ∅) Samples.passOk
                        Samples.ticksSteppingBack tt)))).
Proof.
  split; [reflexivity|].
  change (~ NoDup [200; 100; 200]).
  intros H. apply NoDup_cons in H as [Hnot _].
  apply Hnot. apply list_elem_of_In. simpl. tauto.
Qed.

(** ** The shard repairer *)

Section ShardRepairFacts.

Context {Host Ident ShardID LocalMetadata PeerIter Comparer Diff Options
         : Type}.
Implicit Types
  (r : Shard.shardRepairer Host Ident ShardID LocalMetadata PeerIter
         Comparer Diff Options)
  (shard : Shard.databaseShard ShardID LocalMetadata)
  (session : Shard.AdminSession Host Ident ShardID PeerIter).

(** C1, as the code has it.  When the admin session cannot be had,
    [Repair] returns that error with the empty result and makes no call
    at all.  When the peer metadata fetch fails, [Repair] returns that
    error with the empty result and the recording function is not
    called.  The second result of the local fetch is dropped: two shards
    with the same identifier and the same local metadata give the same
    outcome, whatever came with the metadata. *)
Theorem Repair_error_aborts r (namespace : Ident) (t : Time) shard :
  (forall err : error,
      Shard.DefaultAdminSession r = inl err ->
      Shard.Repair r namespace t shard
      = ((Shard.emptyResult, Some err), [])) /\
  (forall session (err : error),
      Shard.DefaultAdminSession r = inr session ->
      Shard.FetchBlocksMetadataFromPeers session namespace
        (Shard.shard_ID shard) t (Add t (Shard.blockSize r)) = inl err ->
      fst (Shard.Repair r namespace t shard)
      = (Shard.emptyResult, Some err) /\
      Shard.recorded (snd (Shard.Repair r namespace t shard)) = false) /\
  (forall shard',
      Shard.shard_ID shard' = Shard.shard_ID shard ->
      fst (Shard.FetchBlocksMetadata shard' t (Add t (Shard.blockSize r))
             maxInt64 0 true true)
      = fst (Shard.FetchBlocksMetadata shard t (Add t (Shard.blockSize r))
               maxInt64 0 true true) ->
      Shard.Repair r namespace t shard'
      = Shard.Repair r namespace t shard).
Proof.
  split; [|split].
  - intros err Hs. unfold Shard.Repair. rewrite Hs. reflexivity.
  - intros session err Hs Hp. unfold Shard.Repair. rewrite Hs.
    destruct (Shard.FetchBlocksMetadata shard t (Add t (Shard.blockSize r))
                maxInt64 0 true true) as [localMetadata second].
    rewrite Hp. split; reflexivity.
  - intros shard' Hid Hlocal. unfold Shard.Repair.
    destruct (Shard.DefaultAdminSession r) as [err|session];
      [reflexivity|].
    rewrite Hid.
    destruct (Shard.FetchBlocksMetadata shard' t
                (Add t (Shard.blockSize r)) maxInt64 0 true true)
      as [l' second'].
    destruct (Shard.FetchBlocksMetadata shard t
                (Add t (Shard.blockSize r)) maxInt64 0 true true)
      as [l second].
    simpl in Hlocal. subst l'. reflexivity.
Qed.

End ShardRepairFacts.

Lemma Repair_error_aborts_witness :
  Shard.Repair (ShardSamples.repairer (inl (errExternal "no session")))
    "metrics"%string 100 (ShardSamples.shard None)
  = ((Shard.emptyResult, Some (errExternal "no session")), []) /\
  Shard.recorded
    (snd (Shard.Repair
            (ShardSamples.repairer
               (inr (ShardSamples.session (inl (errExternal "peer down")))))
            "metrics"%string 100 (ShardSamples.shard None)))
  = false.
Proof.
  split.
  - apply (proj1 (Repair_error_aborts
                    (ShardSamples.repairer (inl (errExternal "no session")))
                    "metrics"%string 100 (ShardSamples.shard None))).
    reflexivity.
  - apply (proj1 (proj2 (Repair_error_aborts
                    (ShardSamples.repairer
                       (inr (ShardSamples.session
                               (inl (errExternal "peer down")))))
                    "metrics"%string 100 (ShardSamples.shard None)))
             (ShardSamples.session (inl (errExternal "peer down")))
             (errExternal "peer down")); reflexivity.
Defined.

(** C1 as stated fails for the local fetch: with a session and peers that
    answer, a local fetch that comes with an error does not stop [Repair],
    which returns the comparison result with a nil error and calls the
    recording function. *)
Lemma Repair_local_error_ignored :
  snd (Shard.FetchBlocksMetadata
         (ShardSamples.shard (Some (errExternal "disk read failed")))
         100 110 maxInt64 0 true true)
  = Some (errExternal "disk read failed") /\
  Shard.Repair
    (ShardSamples.repairer (inr (ShardSamples.session (inr [4; 9]))))
    "metrics"%string 100
    (ShardSamples.shard (Some (errExternal "disk read failed")))
  = ((Shard.mkResult 3 2 None None, None),
     [Shard.EvRegisterCloser; Shard.EvNewContext;
      Shard.EvFetchLocal 100 110; Shard.EvCloseLocalMetadata;
      Shard.EvFetchPeers 100 110;
      Shard.EvRecord "metrics"%string 7 (Shard.mkResult 3 2 None None);
      Shard.EvCloseContext]) /\
  Shard.recorded
    (snd (Shard.Repair
            (ShardSamples.repairer (inr (ShardSamples.session (inr [4; 9]))))
            "metrics"%string 100
            (ShardSamples.shard (Some (errExternal "disk read failed")))))
  = true.
Proof. split; [reflexivity|]. split; reflexivity. Qed.

(** * Further properties *)

(** ** More on [repairTimes] *)

Section RepairTimesMore.

Context {World ShardRepairer : Type}.
Implicit Types (r : Db.dbRepairer World ShardRepairer) (w : World)
               (s : Db.state World ShardRepairer).

(** [set_running 0] after [set_running 1] gives back a repairer whose flag
    was clear. *)
Lemma set_running_clear r :
  Db.running r = 0 -> Db.set_running 0 (Db.set_running 1 r) = r.
Proof. destruct r. simpl. intros ->. reflexivity. Qed.

(** Membership in the candidates, for a positive block size. *)
Lemma repairTimes_In r w (l : list Time) :
  0 < BlockSize (Db.rtopts r) <= maxInt64 ->
  Db.repairTimes r w = Returned l ->
  forall t : Time,
    In t l <->
    t mod BlockSize (Db.rtopts r) = 0 /\
    Db.repairTimes_start r w <= t <= Db.repairTimes_end r w /\
    Db.needsRepair r t = true.
Proof.
  intros Hbs Hl. rewrite (repairTimes_eq r w Hbs) in Hl.
  set (bs := BlockSize (Db.rtopts r)) in *.
  set (start := Db.repairTimes_start r w) in *.
  set (end_ := Db.repairTimes_end r w) in *.
  assert (Hs : start mod bs = 0) by (apply Truncate_aligned; lia).
  assert (He : end_ mod bs = 0) by (apply Truncate_aligned; lia).
  destruct (Db.makePanics (Db.repairTimes_capacity r w)) eqn:Hcap;
    [discriminate|].
  assert (Hge : start <= end_)
    by exact (repairTimes_returned_window r w Hbs Hcap).
  clearbody start end_ bs.
  injection Hl as <-.
  apply Z.mod_divide in Hs as [ks Hks]; [|lia].
  apply Z.mod_divide in He as [ke Hke]; [|lia].
  assert (Hdiv : (end_ - start) / bs = ke - ks).
  { subst start end_. replace (ke * bs - ks * bs) with ((ke - ks) * bs) by lia.
    apply Z.div_mul. lia. }
  assert (Hk : ks <= ke) by nia.
  rewrite Hdiv. intros t. rewrite List.filter_In, blocksDown_In. split.
  - intros [(i & Hi & ->) Hn]. subst start end_.
    split; [|split; [|exact Hn]].
    + replace (ke * bs - i * bs) with ((ke - i) * bs) by lia.
      apply Z.mod_mul. lia.
    + nia.
  - intros (Hm & Hr & Hn). split; [|exact Hn].
    apply Z.mod_divide in Hm as [kt Hkt]; [|lia].
    exists (ke - kt). subst start end_ t. split; [nia|lia].
Qed.


(** X2.  When the window is inverted, a pass on a bootstrapped node with
    the flag clear panics before it attempts anything: the only calls are
    the compare-and-swap and the deferred store, and the repairer (ledger
    and flag) and the world are as they were. *)
Theorem Repair_panics_untouched s :
  Db.IsBootstrapped (Db.db (Db.rep s)) (Db.world s) = true ->
  Db.running (Db.rep s) = 0 ->
  0 < BlockSize (Db.rtopts (Db.rep s)) <= maxInt64 ->
  Db.repairTimes_end (Db.rep s) (Db.world s)
  < Db.repairTimes_start (Db.rep s) (Db.world s) ->
  Db.Repair s =
  (Panicked,
   Db.mkState (Db.rep s) (Db.world s)
     (Db.trace s ++ [Db.EvCompareAndSwapInt32 0 1 true; Db.EvStoreInt32 0])).
Proof.
  intros Hboot Hrun Hbs Hinv.
  rewrite (Repair_flag_clear s Hboot Hrun), (repairTimes_eq _ _ Hbs),
    (makePanics_inverted _ _ Hbs Hinv).
  unfold Db.StoreInt32, Db.log. simpl.
  rewrite (set_running_clear _ Hrun), <- app_assoc. reflexivity.
Qed.

(** X3.  For a positive block size the candidates number at most one per
    block of the window, [(end - start) / blockSize + 1]; with an empty
    ledger they are all the blocks of the window; and for a window shorter
    than [2 ^ 53] nanoseconds, where the float division is exact, the
    capacity reserved for them is one less than the number of blocks. *)
Theorem repairTimes_count r w (l : list Time) :
  0 < BlockSize (Db.rtopts r) <= maxInt64 ->
  Db.repairTimes r w = Returned l ->
  let bs := BlockSize (Db.rtopts r) in
  let start := Db.repairTimes_start r w in
  let end_ := Db.repairTimes_end r w in
  Z.of_nat (length l) <= (end_ - start) / bs + 1 /\
  (Db.repairStates r = ∅ ->
   l = blocksDown bs (Z.to_nat ((end_ - start) / bs + 1)) end_ /\
   Z.of_nat (length l) = (end_ - start) / bs + 1) /\
  (end_ - start < 2 ^ 53 ->
   Db.repairTimes_capacity r w = (end_ - start) / bs).
Proof.
  intros Hbs Hl bs start end_. rewrite (repairTimes_eq r w Hbs) in Hl.
  fold bs start end_ in Hl.
  destruct (Db.makePanics (Db.repairTimes_capacity r w)) eqn:Hcap;
    [discriminate|].
  assert (Hge : start <= end_)
    by exact (repairTimes_returned_window r w Hbs Hcap).
  injection Hl as <-.
  assert (Hq : 0 <= (end_ - start) / bs) by (apply Z.div_pos; lia).
  assert (Hlen : forall n t, length (blocksDown bs n t) = n).
  { induction n as [|n IH]; intros t; simpl; [reflexivity|].
    now rewrite IH. }
  split; [|split].
  - pose proof (List.filter_length_le (Db.needsRepair r)
                  (blocksDown bs (Z.to_nat ((end_ - start) / bs + 1)) end_))
      as Hle.
    rewrite Hlen in Hle. lia.
  - intros Hempty.
    assert (Hall : forall l0 : list Time,
               List.filter (Db.needsRepair r) l0 = l0).
    { induction l0 as [|x l0 IH]; simpl; [reflexivity|].
      unfold Db.needsRepair at 1. rewrite Hempty, lookup_empty.
      now rewrite IH. }
    rewrite Hall, Hlen. split; [reflexivity|lia].
  - intros Hfit. exact (repairTimes_capacity_exact r w Hbs Hge Hfit).
Qed.

End RepairTimesMore.


(** A retention shorter than the buffer past: the window is inverted. *)
Example repairTimes_short_retention :
  Db.repairTimes_capacity (Db.rep MoreSamples.shortRetention) tt = -3 /\
  Db.repairTimes (Db.rep MoreSamples.shortRetention) tt = Panicked.
Proof. vm_compute. split; reflexivity. Qed.

Lemma Repair_panics_untouched_witness :
  Db.Repair MoreSamples.shortRetention =
  (Panicked,
   Db.mkState (Db.rep MoreSamples.shortRetention) tt
     [Db.EvCompareAndSwapInt32 0 1 true; Db.EvStoreInt32 0]).
Proof.
  assert (Hbs : 0 < 10 <= maxInt64) by (unfold maxInt64; lia).
  apply (Repair_panics_untouched MoreSamples.shortRetention eq_refl eq_refl
           Hbs).
  vm_compute. reflexivity.
Defined.

Lemma repairTimes_count_witness :
  Z.of_nat (length [80; 70; 60; 50]) = 4 /\
  [80; 70; 60; 50] = blocksDown 10 4 80 /\
  Db.repairTimes_capacity (Samples.repairerAt 105 ∅) tt = 3.
Proof.
  assert (Hbs : 0 < 10 <= maxInt64) by (unfold maxInt64; lia).
  destruct (repairTimes_count (Samples.repairerAt 105 ∅) tt [80; 70; 60; 50]
              Hbs repairTimes_at_105) as (_ & Hfull & Hcap).
  destruct (Hfull eq_refl) as (Hall & Hlen).
  split; [exact Hlen|]. split; [exact Hall|].
  apply Hcap. vm_compute. reflexivity.
Defined.

(** For a longer window the float quotient can fall short: 106 blocks of
    one day and a nanosecond are returned, and the capacity is 104. *)
Example repairTimes_capacity_short :
  Db.repairTimes_capacity MoreSamples.dayBlocks tt = 104 /\
  exists l : list Time,
    Db.repairTimes MoreSamples.dayBlocks tt = Returned l /\
    length l = 106%nat.
Proof.
  split; [vm_compute; reflexivity|].
  eexists. split; [vm_compute; reflexivity|reflexivity].
Qed.

(** ** More on the ledger across a pass *)

Section PassLedgerMore.

Context {World ShardRepairer : Type}.
Implicit Types (r : Db.dbRepairer World ShardRepairer) (w : World)
               (s : Db.state World ShardRepairer)
               (m : gmap Z repairState).

(** [needsRepair] reads the ledger entry and [repairMaxRetries] only. *)
Lemma needsRepair_ext r r' (t : Time) :
  Db.repairStates r' !! t = Db.repairStates r !! t ->
  Db.repairMaxRetries r' = Db.repairMaxRetries r ->
  Db.needsRepair r' t = Db.needsRepair r t.
Proof. intros Hm Hmax. unfold Db.needsRepair. now rewrite Hm, Hmax. Qed.

(** Every way [Repair] can end, with what it leaves of the repairer. *)
Lemma Repair_rep_cases s :
  Db.rep (snd (Db.Repair s)) = Db.rep s \/
  Db.rep (snd (Db.Repair s)) = Db.set_running 1 (Db.rep s) \/
  Db.rep (snd (Db.Repair s)) = Db.set_running 0 (Db.set_running 1 (Db.rep s))
  \/
  exists times : list Time,
    Db.repairTimes (Db.rep s) (Db.world s) = Returned times /\
    Db.rep (snd (Db.Repair s)) =
    Db.set_running 0
      (Db.set_repairStates
         (Db.ledgerAfter
            (fst (Db.attemptAll (Db.db (Db.rep s))
                    (Db.shardRepairer (Db.rep s)) times (Db.world s)))
            (Db.repairStates (Db.rep s)))
         (Db.rep s)).
Proof.
  destruct (Db.IsBootstrapped (Db.db (Db.rep s)) (Db.world s)) eqn:Hboot.
  - destruct (Z.eq_dec (Db.running (Db.rep s)) 0) as [Hrun|Hrun].
    + destruct (Db.repairTimes (Db.rep s) (Db.world s)) as [times| |]
        eqn:Htimes.
      * right; right; right. exists times. split; [reflexivity|].
        rewrite (Repair_pass_eq s times Hboot Hrun Htimes). reflexivity.
      * right; right; left.
        rewrite (Repair_flag_clear s Hboot Hrun), Htimes. reflexivity.
      * right; left.
        rewrite (Repair_flag_clear s Hboot Hrun), Htimes. reflexivity.
    + left. unfold Db.Repair, Db.CompareAndSwapInt32. rewrite Hboot. simpl.
      destruct (Z.eqb_spec (Db.running (Db.rep s)) 0); [contradiction|].
      reflexivity.
  - left. unfold Db.Repair. rewrite Hboot. reflexivity.
Qed.

Lemma updateRepairState_dom (t : Time) (err : option error) m :
  dom (Db.updateRepairState t err m) = {[t]} ∪ dom m.
Proof.
  unfold Db.updateRepairState. destruct err; apply dom_insert_L.
Qed.

Lemma ledgerAfter_dom (all : list (Time * list (string * option error))) :
  forall m,
    dom (Db.ledgerAfter all m) = dom m ∪ list_to_set (List.map fst all).
Proof.
  unfold Db.ledgerAfter.
  induction all as [|[t rs] rest IH]; intros m; simpl.
  - now rewrite union_empty_r_L.
  - rewrite IH, updateRepairState_dom.
    rewrite (comm_L (∪) {[t]} (dom m)), <- (assoc_L (∪)). reflexivity.
Qed.

(** X4.  A timestamp that does not need repair before a call of [Repair]
    does not need repair after it, however the call ends: a block that was
    repaired, or whose retries are used up, is never taken up again. *)
Theorem Repair_keeps_settled s (t : Time) :
  Db.needsRepair (Db.rep s) t = false ->
  Db.needsRepair (Db.rep (snd (Db.Repair s))) t = false.
Proof.
  intros Hsettled.
  destruct (Repair_rep_cases s) as [H|[H|[H|(times & Htimes & H)]]];
    rewrite H; try exact Hsettled.
  rewrite <- Hsettled. apply needsRepair_ext; [|reflexivity]. simpl.
  apply ledgerAfter_notin. rewrite attemptAll_times.
  intros Hin.
  destruct (repairTimes_candidates _ _ _ Htimes) as [_ Hneeds].
  rewrite (Hneeds t Hin) in Hsettled. discriminate.
Qed.

(** X5.  [Repair] never drops a ledger entry, however it ends; a pass
    that returns leaves exactly the entries it found and one for each
    candidate. *)
Theorem Repair_ledger_grows s :
  dom (Db.repairStates (Db.rep s))
  ⊆ dom (Db.repairStates (Db.rep (snd (Db.Repair s)))) /\
  (forall times : list Time,
      Db.IsBootstrapped (Db.db (Db.rep s)) (Db.world s) = true ->
      Db.running (Db.rep s) = 0 ->
      Db.repairTimes (Db.rep s) (Db.world s) = Returned times ->
      dom (Db.repairStates (Db.rep (snd (Db.Repair s))))
      = dom (Db.repairStates (Db.rep s)) ∪ list_to_set times).
Proof.
  split.
  - destruct (Repair_rep_cases s) as [H|[H|[H|(times & Htimes & H)]]];
      rewrite H; simpl; try reflexivity.
    rewrite ledgerAfter_dom. apply union_subseteq_l.
  - intros times Hboot Hrun Htimes.
    rewrite (Repair_pass_eq s times Hboot Hrun Htimes). simpl.
    rewrite ledgerAfter_dom, attemptAll_times. reflexivity.
Qed.

(** X6.  A call of [Repair] changes nothing of the repairer but the ledger
    and the running flag: the database, the options, the clock, the
    scheduling parameters, the retry limit and the closed flag are as
    before, however the call ends. *)
Theorem Repair_keeps_configuration s :
  let r := Db.rep s in
  let r' := Db.rep (snd (Db.Repair s)) in
  Db.db r' = Db.db r /\
  Db.rtopts r' = Db.rtopts r /\
  Db.shardRepairer r' = Db.shardRepairer r /\
  Db.nowFn r' = Db.nowFn r /\
  Db.repairInterval r' = Db.repairInterval r /\
  Db.repairTimeOffset r' = Db.repairTimeOffset r /\
  Db.repairTimeJitter r' = Db.repairTimeJitter r /\
  Db.repairCheckInterval r' = Db.repairCheckInterval r /\
  Db.repairMaxRetries r' = Db.repairMaxRetries r /\
  Db.closed r' = Db.closed r.
Proof.
  intros r r'. unfold r'.
  destruct (Repair_rep_cases s) as [H|[H|[H|(times & Htimes & H)]]];
    rewrite H; simpl; repeat split.
Qed.

End PassLedgerMore.

Lemma Repair_keeps_settled_witness :
  Db.needsRepair
    (Db.rep (snd (Db.Repair (Samples.passState true Samples.ledger4 0)))) 80
  = false.
Proof.
  apply (Repair_keeps_settled (Samples.passState true Samples.ledger4 0) 80).
  reflexivity.
Defined.

Lemma Repair_ledger_grows_witness :
  dom (Db.repairStates
         (Db.rep (snd (Db.Repair (Samples.passState true Samples.ledger4 0)))))
  = dom Samples.ledger4 ∪ list_to_set [70; 50].
Proof.
  apply (proj2 (Repair_ledger_grows
                  (Samples.passState true Samples.ledger4 0))
           [70; 50] eq_refl eq_refl eq_refl).
Defined.

(** ** From one pass to the next *)

Section NextPass.

Context {World ShardRepairer : Type}.
Implicit Types (r : Db.dbRepairer World ShardRepairer) (w : World)
               (s : Db.state World ShardRepairer).

(** The entry a pass leaves for a time it attempted. *)
Lemma pass_entry r w (times : list Time) (t : Time)
    (rs : list (string * option error)) :
  Db.repairTimes r w = Returned times ->
  Db.repairMaxRetries r <= maxInt64 ->
  ledgerTyped (Db.repairStates r) ->
  In (t, rs) (fst (Db.attemptAll (Db.db r) (Db.shardRepairer r) times w)) ->
  Db.ledgerAfter (fst (Db.attemptAll (Db.db r) (Db.shardRepairer r) times w))
    (Db.repairStates r) !! t =
  Some (if Db.succeeded rs
        then mkRepairState repairSuccess
               (Db.numFailuresOf (Db.repairStates r) t)
        else mkRepairState repairFailed
               (Db.numFailuresOf (Db.repairStates r) t + 1)).
Proof.
  intros Htimes Hmax Htyped Hin.
  destruct (repairTimes_candidates _ _ _ Htimes) as [Hnd Hneeds].
  pose proof (attemptAll_times (Db.db r) (Db.shardRepairer r) times w)
    as Hmap.
  assert (Hnd' : List.NoDup
                   (List.map fst
                      (fst (Db.attemptAll (Db.db r) (Db.shardRepairer r)
                              times w)))).
  { rewrite Hmap. apply NoDup_ListNoDup. exact Hnd. }
  rewrite (ledgerAfter_in _ _ t rs Hnd' Hin), update_lookup.
  assert (Ht : In t times).
  { rewrite <- Hmap. change t with (fst (t, rs)).
    apply List.in_map. exact Hin. }
  destruct (Db.succeeded rs) eqn:Hok.
  - apply (namespaceErrors_nil t), FinalError_None in Hok.
    rewrite Hok. reflexivity.
  - destruct (xerrors.FinalError (Db.namespaceErrors t rs)) eqn:Hf.
    + rewrite (needsRepair_no_wrap r t (Db.repairStates r)
                 (Hneeds t Ht) eq_refl Htyped Hmax).
      reflexivity.
    + apply FinalError_None, namespaceErrors_nil in Hf. congruence.
Qed.

(** X7.  The retry policy from one pass to the next.  After a pass over
    [times], a pass started at the same clock reading has a timestamp among
    its candidates exactly when the first pass attempted it, the attempt
    failed, and its failure count, now one higher, is still below
    [repairMaxRetries].  When every attempt succeeded there is nothing left
    to do. *)
Theorem next_pass_candidates s (times : list Time) :
  Db.IsBootstrapped (Db.db (Db.rep s)) (Db.world s) = true ->
  Db.running (Db.rep s) = 0 ->
  0 < BlockSize (Db.rtopts (Db.rep s)) <= maxInt64 ->
  Db.repairMaxRetries (Db.rep s) <= maxInt64 ->
  ledgerTyped (Db.repairStates (Db.rep s)) ->
  Db.repairTimes (Db.rep s) (Db.world s) = Returned times ->
  Db.nowFn (Db.rep s) (Db.world (snd (Db.Repair s)))
  = Db.nowFn (Db.rep s) (Db.world s) ->
  let all := fst (Db.attemptAll (Db.db (Db.rep s))
                    (Db.shardRepairer (Db.rep s)) times (Db.world s)) in
  exists times' : list Time,
    Db.repairTimes (Db.rep (snd (Db.Repair s))) (Db.world (snd (Db.Repair s)))
    = Returned times' /\
    (forall t : Time,
        In t times' <->
        exists rs : list (string * option error),
          In (t, rs) all /\ Db.succeeded rs = false /\
          Db.numFailuresOf (Db.repairStates (Db.rep s)) t + 1
          < Db.repairMaxRetries (Db.rep s)) /\
    (Forall (fun a => Db.succeeded (snd a) = true) all -> times' = []).
Proof.
  intros Hboot Hrun Hbs Hmax Htyped Htimes Hclock all.
  pose proof (attemptAll_times (Db.db (Db.rep s))
                (Db.shardRepairer (Db.rep s)) times (Db.world s)) as Hmap.
  fold all in Hmap.
  pose proof (repairTimes_In _ _ _ Hbs Htimes) as Hin.
  rewrite (Repair_pass_eq s times Hboot Hrun Htimes) in *. simpl in *.
  fold all in Hclock |- *.
  set (r := Db.rep s) in *. set (w := Db.world s) in *.
  set (r' := Db.set_running 0
               (Db.set_repairStates
                  (Db.ledgerAfter all (Db.repairStates r)) r)).
  set (w' := snd (Db.attemptAll (Db.db r) (Db.shardRepairer r) times w))
    in *.
  assert (Hstart : Db.repairTimes_start r' w' = Db.repairTimes_start r w).
  { unfold Db.repairTimes_start. simpl. now rewrite Hclock. }
  assert (Hend : Db.repairTimes_end r' w' = Db.repairTimes_end r w).
  { unfold Db.repairTimes_end. simpl. now rewrite Hclock. }
  assert (Hbs' : 0 < BlockSize (Db.rtopts r') <= maxInt64) by exact Hbs.
  assert (Hret : exists times', Db.repairTimes r' w' = Returned times').
  { assert (Hcap : Db.repairTimes_capacity r' w'
                   = Db.repairTimes_capacity r w).
    { unfold Db.repairTimes_capacity. rewrite Hstart, Hend. reflexivity. }
    rewrite (repairTimes_eq r' w' Hbs'), Hcap.
    rewrite (repairTimes_eq r w Hbs) in Htimes.
    destruct (Db.makePanics _); [discriminate|]. eexists. reflexivity. }
  destruct Hret as [times' Htimes']. exists times'.
  split; [exact Htimes'|].
  pose proof (repairTimes_In _ _ _ Hbs' Htimes') as Hin'.
  rewrite Hstart, Hend in Hin'. simpl in Hin'.
  assert (Hentry : forall t rs, In (t, rs) all ->
            Db.needsRepair r' t =
            negb (Db.succeeded rs)
            && (Db.numFailuresOf (Db.repairStates r) t + 1
                <? Db.repairMaxRetries r)).
  { intros t rs Hrs. unfold Db.needsRepair. simpl.
    unfold all. rewrite (pass_entry r w times t rs Htimes Hmax Htyped Hrs).
    destruct (Db.succeeded rs); reflexivity. }
  assert (Hiff : forall t : Time,
            In t times' <->
            exists rs : list (string * option error),
              In (t, rs) all /\ Db.succeeded rs = false /\
              Db.numFailuresOf (Db.repairStates r) t + 1
              < Db.repairMaxRetries r).
  { intros t. rewrite Hin'. split.
    - intros (Hal & Hrange & Hneeds').
      destruct (Db.needsRepair r t) eqn:Hneeds.
      + assert (Ht : In t times) by (apply Hin; tauto).
        rewrite <- Hmap in Ht. apply List.in_map_iff in Ht
          as ([t' rs] & Heq & Hrs). simpl in Heq. subst t'.
        exists rs. split; [exact Hrs|].
        rewrite (Hentry t rs Hrs) in Hneeds'.
        apply andb_true_iff in Hneeds' as [Hfail Hlt].
        apply negb_true_iff in Hfail. apply Z.ltb_lt in Hlt. tauto.
      + exfalso.
        assert (Hsame : Db.needsRepair r' t = Db.needsRepair r t).
        { apply needsRepair_ext; [|reflexivity]. simpl.
          apply ledgerAfter_notin. rewrite Hmap. intros Ht.
          apply Hin in Ht. destruct Ht as (_ & _ & Ht). congruence. }
        congruence.
    - intros (rs & Hrs & Hfail & Hlt).
      assert (Ht : In t times).
      { rewrite <- Hmap. change t with (fst (t, rs)).
        apply List.in_map. exact Hrs. }
      apply Hin in Ht as (Hal & Hrange & _).
      split; [exact Hal|]. split; [exact Hrange|].
      rewrite (Hentry t rs Hrs), Hfail. simpl. apply Z.ltb_lt. exact Hlt. }
  split; [exact Hiff|].
  intros Hall. destruct times' as [|t rest]; [reflexivity|].
  exfalso. destruct (proj1 (Hiff t) (or_introl eq_refl))
    as (rs & Hrs & Hfail & _).
  rewrite List.Forall_forall in Hall. specialize (Hall (t, rs) Hrs).
  simpl in Hall. congruence.
Qed.

Lemma attemptAll_no_namespaces (d : Db.database World ShardRepairer)
    (sr : ShardRepairer) :
  (forall w, Db.getOwnedNamespaces d w = []) ->
  forall (times : list Time) w,
    Db.attemptAll d sr times w = (List.map (fun t => (t, [])) times, w).
Proof.
  intros Hnone. induction times as [|t rest IH]; intros w; simpl;
    [reflexivity|].
  rewrite Hnone. simpl. rewrite IH. reflexivity.
Qed.

(** X8.  On a node that owns no namespace a pass has nothing to ask: it
    returns nil, leaves the world as it was, makes no call but the
    compare-and-swap and the store, and marks every candidate Success with
    its failure count unchanged. *)
Theorem Repair_no_namespaces s (times : list Time) :
  Db.IsBootstrapped (Db.db (Db.rep s)) (Db.world s) = true ->
  Db.running (Db.rep s) = 0 ->
  Db.repairTimes (Db.rep s) (Db.world s) = Returned times ->
  (forall w, Db.getOwnedNamespaces (Db.db (Db.rep s)) w = []) ->
  fst (Db.Repair s) = Returned None /\
  Db.world (snd (Db.Repair s)) = Db.world s /\
  Db.trace (snd (Db.Repair s))
  = Db.trace s ++ [Db.EvCompareAndSwapInt32 0 1 true; Db.EvStoreInt32 0] /\
  (forall t : Time,
      In t times ->
      Db.repairStates (Db.rep (snd (Db.Repair s))) !! t
      = Some (mkRepairState repairSuccess
                (Db.numFailuresOf (Db.repairStates (Db.rep s)) t))).
Proof.
  intros Hboot Hrun Htimes Hnone.
  rewrite (Repair_pass_eq s times Hboot Hrun Htimes). simpl.
  rewrite (attemptAll_no_namespaces _ _ Hnone). simpl.
  assert (Hcoll : forall l : list Time,
             Db.collectedErrors (List.map (fun t => (t, [])) l) = []).
  { induction l as [|x l IH]; [reflexivity|]. exact IH. }
  assert (Hev : forall l : list Time,
             Db.attemptEvents (List.map (fun t => (t, [])) l) = []).
  { induction l as [|x l IH]; [reflexivity|]. exact IH. }
  rewrite Hcoll, Hev. simpl.
  split; [reflexivity|]. split; [reflexivity|]. split; [reflexivity|].
  intros t Ht.
  destruct (repairTimes_candidates _ _ _ Htimes) as [Hnd _].
  rewrite (ledgerAfter_in _ _ t []).
  - rewrite update_lookup. reflexivity.
  - rewrite List.map_map. simpl. rewrite List.map_id.
    apply NoDup_ListNoDup. exact Hnd.
  - apply (List.in_map (fun t => (t, []))). exact Ht.
Qed.

End NextPass.

Lemma next_pass_candidates_witness :
  exists times' : list Time,
    Db.repairTimes (Db.rep (snd (Db.Repair (Samples.passState true ∅ 0))))
      (Db.world (snd (Db.Repair (Samples.passState true ∅ 0))))
    = Returned times' /\
    In 70 times'.
Proof.
  assert (Hbs : 0 < 10 <= maxInt64) by (unfold maxInt64; lia).
  assert (Hmax : 3 <= maxInt64) by (unfold maxInt64; lia).
  assert (Htyped : ledgerTyped (∅ : gmap Z repairState)).
  { intros t st H. rewrite lookup_empty in H. discriminate. }
  destruct (next_pass_candidates (Samples.passState true ∅ 0)
              [80; 70; 60; 50] eq_refl eq_refl Hbs Hmax Htyped eq_refl
              eq_refl) as (times' & Heq & Hiff & _).
  exists times'. split; [exact Heq|].
  apply Hiff.
  exists [("logs"%string, Some (errExternal "peers unreachable"));
          ("metrics"%string, None)].
  split; [right; left; reflexivity|].
  split; [reflexivity|]. vm_compute. reflexivity.
Defined.

Lemma Repair_no_namespaces_witness :
  fst (Db.Repair MoreSamples.noNamespaces) = Returned None /\
  Db.repairStates (Db.rep (snd (Db.Repair MoreSamples.noNamespaces))) !! 70
  = Some (mkRepairState repairSuccess 2).
Proof.
  destruct (Repair_no_namespaces MoreSamples.noNamespaces [70; 50]
              eq_refl eq_refl eq_refl (fun _ => eq_refl))
    as (Hres & _ & _ & Hentry).
  split; [exact Hres|].
  exact (Hentry 70 (or_introl eq_refl)).
Defined.

(** ** More on the polling loop *)

Section RunLoopMore.

Context {World ShardRepairer : Type}.
Implicit Types (r : Db.dbRepairer World ShardRepairer)
               (obs : list Db.observation).

Lemma run_loop_closed {S : Type} r
    (repairFn : S -> outcome (option error) * S)
    (o : Db.observation) (obs2 : list Db.observation) :
  Db.obs_closed o = true ->
  forall obs1 (cur : Time) (s : S) (tr : list Db.runEvent),
    Db.run_loop r repairFn (obs1 ++ o :: obs2) cur s tr
    = Db.run_loop r repairFn obs1 cur s tr.
Proof.
  intros Hclosed. induction obs1 as [|a obs1 IH]; intros cur s tr; simpl.
  - rewrite Hclosed. reflexivity.
  - destruct (Db.obs_closed a); [reflexivity|].
    destruct (Before _ _); [apply IH|].
    destruct (_ =? _); [apply IH|].
    destruct (repairFn s) as [[[e|]| |] s']; try apply IH; reflexivity.
Qed.

(** X9.  Once the loop reads the closed flag as set it is over: whatever
    would have been observed afterwards, it sleeps no more and invokes no
    pass, and ends in the state it had reached. *)
Theorem run_stops_when_closed {S : Type} r
    (repairFn : S -> outcome (option error) * S)
    obs (o : Db.observation) (later : list Db.observation) (s : S) :
  Db.obs_closed o = true ->
  Db.run r repairFn (obs ++ o :: later) s = Db.run r repairFn obs s.
Proof. intros Hclosed. apply run_loop_closed. exact Hclosed. Qed.

Lemma run_loop_ignores_results {S S' : Type} r
    (f : S -> outcome (option error) * S)
    (g : S' -> outcome (option error) * S') :
  (forall s, exists e s1, f s = (Returned e, s1)) ->
  (forall s, exists e s1, g s = (Returned e, s1)) ->
  forall obs (cur : Time) (s : S) (s' : S') (tr tr' : list Db.runEvent),
    Db.invocations tr = Db.invocations tr' ->
    Db.invocations (fst (Db.run_loop r f obs cur s tr))
    = Db.invocations (fst (Db.run_loop r g obs cur s' tr')).
Proof.
  intros Hf Hg. induction obs as [|o rest IH]; intros cur s s' tr tr' Htr;
    simpl; [exact Htr|].
  destruct (Db.obs_closed o); [exact Htr|].
  assert (Hsleep : Db.invocations
                     (tr ++ [Db.RunSleep (Db.repairCheckInterval r)])
                   = Db.invocations
                       (tr' ++ [Db.RunSleep (Db.repairCheckInterval r)])).
  { rewrite !invocations_app, Htr. reflexivity. }
  destruct (Before _ _); [apply IH, Hsleep|].
  destruct (_ =? _); [apply IH, Hsleep|].
  destruct (Hf s) as (e & s1 & ->). destruct (Hg s') as (e' & s1' & ->).
  destruct e, e'; apply IH; rewrite !invocations_app; simpl;
    rewrite ?app_nil_r, Htr; reflexivity.
Qed.

(** X10.  Which passes the loop invokes, and at which clock readings,
    depends on the observations alone: with two pass functions that both
    return, whatever they return and whatever they do to their state, the
    invocations are the same.  A failed pass is logged and changes nothing
    of the schedule. *)
Theorem run_schedule_ignores_results {S S' : Type} r
    (f : S -> outcome (option error) * S)
    (g : S' -> outcome (option error) * S') obs (s : S) (s' : S') :
  (forall s, exists e s1, f s = (Returned e, s1)) ->
  (forall s, exists e s1, g s = (Returned e, s1)) ->
  Db.invocations (fst (Db.run r f obs s))
  = Db.invocations (fst (Db.run r g obs s')).
Proof.
  intros Hf Hg. apply run_loop_ignores_results; [exact Hf|exact Hg|].
  reflexivity.
Qed.

Lemma run_loop_handles_due {S : Type} r
    (repairFn : S -> outcome (option error) * S) :
  (forall s, exists e s1, repairFn s = (Returned e, s1)) ->
  forall obs (cur : Time) (s : S) (tr : list Db.runEvent),
    Forall (fun o => Db.obs_closed o = false) obs ->
    forall o : Db.observation,
      In o obs ->
      Add (Truncate (Db.obs_now o) (Db.repairInterval r))
          (dadd (Db.repairTimeOffset r) (Db.repairTimeJitter r))
      <= Db.obs_now o ->
      Truncate (Db.obs_now o) (Db.repairInterval r) = cur \/
      In (Truncate (Db.obs_now o) (Db.repairInterval r))
         (List.map fst
            (Db.invocations (fst (Db.run_loop r repairFn obs cur s tr)))).
Proof.
  intros Hret. induction obs as [|a rest IH]; intros cur s tr Hopen o Hin Hdue;
    [destruct Hin|].
  inversion Hopen as [|? ? Ha Hrest]; subst.
  simpl. rewrite Ha. unfold Before.
  set (now := Db.obs_now a).
  set (i := Truncate now (Db.repairInterval r)).
  set (tr1 := tr ++ [Db.RunSleep (Db.repairCheckInterval r)]).
  destruct (Z.ltb_spec now
              (Add i (dadd (Db.repairTimeOffset r) (Db.repairTimeJitter r))))
    as [Hearly|Hnow].
  { destruct Hin as [Heq|Hin]; [|apply IH; assumption].
    subst o. subst i now. unfold Time, Duration in *. lia. }
  destruct (Z.eqb_spec i cur) as [Hsame|Hnew].
  { destruct Hin as [Heq|Hin]; [|apply IH; assumption].
    subst o. left. exact Hsame. }
  assert (Hgo : forall (s1 : S) (tr2 : list Db.runEvent),
            In i (List.map fst (Db.invocations tr2)) ->
            Truncate (Db.obs_now o) (Db.repairInterval r) = cur \/
            In (Truncate (Db.obs_now o) (Db.repairInterval r))
               (List.map fst
                  (Db.invocations
                     (fst (Db.run_loop r repairFn rest i s1 tr2))))).
  { intros s1 tr2 Hi. right.
    destruct (run_loop_invocations r repairFn rest i s1 tr2)
      as (L & HL & _).
    rewrite HL, List.map_app, List.in_app_iff.
    destruct Hin as [Ho|Hin]; [subst o; left; exact Hi|].
    destruct (IH i s1 tr2 Hrest o Hin Hdue) as [Heq|Hthere].
    - left. rewrite Heq. exact Hi.
    - rewrite HL, List.map_app, List.in_app_iff in Hthere. exact Hthere. }
  assert (Hi : In i (List.map fst
                       (Db.invocations (tr1 ++ [Db.RunRepairFn i now])))).
  { rewrite invocations_app, List.map_app, List.in_app_iff.
    right. left. reflexivity. }
  destruct (Hret s) as ([e|] & s1 & ->).
  - apply Hgo. rewrite invocations_app, List.map_app, List.in_app_iff.
    left. exact Hi.
  - apply Hgo. exact Hi.
Qed.

(** X11.  The loop misses no interval.  While the closed flag reads clear
    and every pass returns, each observation whose clock reading has
    reached the target of its interval finds that interval handled: a pass
    has been invoked for its interval start, unless that is the zero time,
    the value the loop starts from. *)
Theorem run_handles_every_due_interval {S : Type} r
    (repairFn : S -> outcome (option error) * S) obs (s : S)
    (o : Db.observation) :
  (forall s, exists e s1, repairFn s = (Returned e, s1)) ->
  Forall (fun o => Db.obs_closed o = false) obs ->
  In o obs ->
  Add (Truncate (Db.obs_now o) (Db.repairInterval r))
      (dadd (Db.repairTimeOffset r) (Db.repairTimeJitter r))
  <= Db.obs_now o ->
  Truncate (Db.obs_now o) (Db.repairInterval r) <> 0 ->
  In (Truncate (Db.obs_now o) (Db.repairInterval r))
     (List.map fst (Db.invocations (fst (Db.run r repairFn obs s)))).
Proof.
  intros Hret Hopen Hin Hdue Hnz.
  destruct (run_loop_handles_due r repairFn Hret obs 0 s [] Hopen o Hin Hdue)
    as [Hzero|Hthere]; [contradiction | exact Hthere].
Qed.

End RunLoopMore.

Lemma run_stops_when_closed_witness :
  Db.run (Samples.repairerAt 105 ∅) Samples.passOk
    MoreSamples.ticksThenClosed tt
  = Db.run (Samples.repairerAt 105 ∅) Samples.passOk Samples.ticksForward tt.
Proof.
  apply (run_stops_when_closed (Samples.repairerAt 105 ∅) Samples.passOk
           Samples.ticksForward (Db.mkObservation true 420)
           [Db.mkObservation false 530] tt).
  reflexivity.
Defined.

Lemma run_schedule_ignores_results_witness :
  Db.invocations
    (fst (Db.run (Samples.repairerAt 105 ∅) MoreSamples.passFails
            Samples.ticksForward tt))
  = Db.invocations
      (fst (Db.run (Samples.repairerAt 105 ∅) Samples.passOk
              Samples.ticksForward tt)).
Proof.
  apply (run_schedule_ignores_results (Samples.repairerAt 105 ∅)
           MoreSamples.passFails Samples.passOk Samples.ticksForward tt tt).
  - intros s. exists (Some (errExternal "pass failed")), s. reflexivity.
  - intros s. exists None, s. reflexivity.
Defined.

Lemma run_handles_every_due_interval_witness :
  In 200
     (List.map fst
        (Db.invocations
           (fst (Db.run (Samples.repairerAt 105 ∅) MoreSamples.passFails
                   Samples.ticksForward tt)))).
Proof.
  apply (run_handles_every_due_interval (Samples.repairerAt 105 ∅)
           MoreSamples.passFails Samples.ticksForward tt
           (Db.mkObservation false 215)).
  - intros s. exists (Some (errExternal "pass failed")), s. reflexivity.
  - repeat constructor.
  - simpl. tauto.
  - vm_compute. discriminate.
  - vm_compute. discriminate.
Defined.

(** ** More on the shard repairer *)

Section ShardRepairMore.

Context {Host Ident ShardID LocalMetadata PeerIter Comparer Diff Options
         : Type}.
Implicit Types
  (r : Shard.shardRepairer Host Ident ShardID LocalMetadata PeerIter
         Comparer Diff Options)
  (shard : Shard.databaseShard ShardID LocalMetadata)
  (session : Shard.AdminSession Host Ident ShardID PeerIter).

(** X12.  When the comparer refuses the peer metadata, [Repair] returns
    that error with the empty result and the recording function is not
    called. *)
Theorem Repair_add_peer_error r (namespace : Ident) (t : Time) shard
    session (peerIter : PeerIter) (err : error) (c : Comparer) :
  Shard.DefaultAdminSession r = inr session ->
  Shard.FetchBlocksMetadataFromPeers session namespace
    (Shard.shard_ID shard) t (Add t (Shard.blockSize r)) = inr peerIter ->
  Shard.AddPeerMetadata (Shard.comparer r) peerIter
    (Shard.AddLocalMetadata (Shard.comparer r) (Shard.Origin session)
       (fst (Shard.FetchBlocksMetadata shard t (Add t (Shard.blockSize r))
               maxInt64 0 true true))
       (Shard.NewReplicaMetadataComparer (Shard.comparer r)
          (Shard.Replicas session) (Shard.rpopts r)))
  = (Some err, c) ->
  fst (Shard.Repair r namespace t shard) = (Shard.emptyResult, Some err) /\
  Shard.recorded (snd (Shard.Repair r namespace t shard)) = false.
Proof.
  intros Hs Hp Ha. unfold Shard.Repair. rewrite Hs.
  destruct (Shard.FetchBlocksMetadata shard t (Add t (Shard.blockSize r))
              maxInt64 0 true true) as [localMetadata second].
  rewrite Hp. simpl in Ha. rewrite Ha. split; reflexivity.
Qed.

(** X13.  [Repair] records exactly when it returns a nil error.  With a
    nil error the recording function is called once, with the namespace,
    the identifier of the shard and the very result that is returned; with
    an error it is not called and the result is the empty one. *)
Theorem Repair_records_iff_ok r (namespace : Ident) (t : Time) shard :
  let res := Shard.Repair r namespace t shard in
  (snd (fst res) = None ->
   ShardTrace.records (snd res)
   = [(namespace, Shard.shard_ID shard, fst (fst res))]) /\
  (snd (fst res) <> None ->
   ShardTrace.records (snd res) = [] /\ fst (fst res) = Shard.emptyResult) /\
  (Shard.recorded (snd res) = true <-> snd (fst res) = None).
Proof.
  unfold Shard.Repair.
  destruct (Shard.DefaultAdminSession r) as [err|session]; simpl.
  { repeat split; try discriminate; congruence. }
  destruct (Shard.FetchBlocksMetadata shard t (Add t (Shard.blockSize r))
              maxInt64 0 true true) as [localMetadata second].
  destruct (Shard.FetchBlocksMetadataFromPeers session namespace
              (Shard.shard_ID shard) t (Add t (Shard.blockSize r)))
    as [err|peerIter]; simpl.
  { repeat split; try discriminate; congruence. }
  destruct (Shard.AddPeerMetadata _ _ _) as [[err|] c]; simpl.
  { repeat split; try discriminate; congruence. }
  repeat split; congruence.
Qed.

(** X14.  The calls of [Repair] are laid out the same way on every path.
    Without a session there is none.  With a session, the comparer is
    registered and a fetch context created, the local metadata is fetched
    for the window from [t] to [t + blockSize] and released, then the peer
    metadata is fetched for that same window; the recording function
    follows at most once; and the fetch context is closed last, whether
    [Repair] succeeds or not. *)
Theorem Repair_call_order r (namespace : Ident) (t : Time) shard :
  (forall err : error,
      Shard.DefaultAdminSession r = inl err ->
      snd (Shard.Repair r namespace t shard) = []) /\
  (forall session,
      Shard.DefaultAdminSession r = inr session ->
      exists mid : list (Shard.event Ident ShardID Diff),
        snd (Shard.Repair r namespace t shard)
        = [Shard.EvRegisterCloser; Shard.EvNewContext;
           Shard.EvFetchLocal t (Add t (Shard.blockSize r));
           Shard.EvCloseLocalMetadata;
           Shard.EvFetchPeers t (Add t (Shard.blockSize r))]
            ++ mid ++ [Shard.EvCloseContext] /\
        (mid = [] \/
         mid = [Shard.EvRecord namespace (Shard.shard_ID shard)
                  (fst (fst (Shard.Repair r namespace t shard)))])).
Proof.
  split.
  - intros err Hs. unfold Shard.Repair. rewrite Hs. reflexivity.
  - intros session Hs. unfold Shard.Repair. rewrite Hs.
    destruct (Shard.FetchBlocksMetadata shard t (Add t (Shard.blockSize r))
                maxInt64 0 true true) as [localMetadata second].
    destruct (Shard.FetchBlocksMetadataFromPeers session namespace
                (Shard.shard_ID shard) t (Add t (Shard.blockSize r)))
      as [err|peerIter].
    { exists []. split; [reflexivity | left; reflexivity]. }
    destruct (Shard.AddPeerMetadata _ _ _) as [[err|] c].
    { exists []. split; [reflexivity | left; reflexivity]. }
    eexists. split; [reflexivity | right; reflexivity].
Qed.

End ShardRepairMore.

Lemma Repair_add_peer_error_witness :
  fst (Shard.Repair (MoreSamples.strictRepairer (inr [])) "metrics"%string 100
         (ShardSamples.shard None))
  = (Shard.emptyResult, Some (errExternal "no peer metadata")) /\
  Shard.recorded
    (snd (Shard.Repair (MoreSamples.strictRepairer (inr []))
            "metrics"%string 100 (ShardSamples.shard None)))
  = false.
Proof.
  apply (Repair_add_peer_error (MoreSamples.strictRepairer (inr []))
           "metrics"%string 100 (ShardSamples.shard None)
           (ShardSamples.session (inr [])) [] (errExternal "no peer metadata")
           ([4; 4; 9], [])); reflexivity.
Defined.

Lemma Repair_records_iff_ok_witness :
  ShardTrace.records
    (snd (Shard.Repair
            (ShardSamples.repairer (inr (ShardSamples.session (inr [4; 9]))))
            "metrics"%string 100 (ShardSamples.shard None)))
  = [("metrics"%string, 7, Shard.mkResult 3 2 None None)].
Proof.
  apply (proj1 (Repair_records_iff_ok
                  (ShardSamples.repairer
                     (inr (ShardSamples.session (inr [4; 9]))))
                  "metrics"%string 100 (ShardSamples.shard None))).
  reflexivity.
Defined.

Lemma Repair_call_order_witness :
  snd (Shard.Repair (ShardSamples.repairer (inl (errExternal "no session")))
         "metrics"%string 100 (ShardSamples.shard None))
  = [].
Proof.
  apply (proj1 (Repair_call_order
                  (ShardSamples.repairer (inl (errExternal "no session")))
                  "metrics"%string 100 (ShardSamples.shard None))
           (errExternal "no session")).
  reflexivity.
Defined.

(** ** The counters *)

Section TallyFacts.

Implicit Types (k : string * gmap string string * string)
               (reg : gmap (string * gmap string string * string) Z)
               (l : list ((string * gmap string string * string) * Z)).

Lemma lookup_Inc k k' (d : Z) reg :
  Tally.Inc k d reg !! k' =
  if decide (k = k') then Some (Tally.Value k reg + d) else reg !! k'.
Proof. unfold Tally.Inc. apply lookup_insert. Qed.

Lemma Value_Inc k k' (d : Z) reg :
  Tally.Value k' (Tally.Inc k d reg) =
  if decide (k = k') then Tally.Value k reg + d else Tally.Value k' reg.
Proof.
  unfold Tally.Value at 1. rewrite lookup_Inc.
  destruct (decide (k = k')); reflexivity.
Qed.

Lemma addedTo_notin k l :
  k ∉ l.*1 -> ShardMetrics.addedTo k l = 0.
Proof.
  induction l as [|[k0 d] l IH]; simpl; intros Hnot; [reflexivity|].
  apply not_elem_of_cons in Hnot as [Hne Hnot].
  destruct (decide (k0 = k)) as [->|_]; [contradiction|]. apply IH, Hnot.
Qed.

Lemma lookup_IncAll l : forall reg k,
  Tally.IncAll l reg !! k =
  if decide (k ∈ l.*1)
  then Some (Tally.Value k reg + ShardMetrics.addedTo k l)
  else reg !! k.
Proof.
  induction l as [|[k0 d] l IH]; intros reg k.
  - simpl. destruct (decide (k ∈ [])) as [Hin|_]; [|reflexivity].
    apply elem_of_nil in Hin. contradiction.
  - change (Tally.IncAll ((k0, d) :: l) reg)
      with (Tally.IncAll l (Tally.Inc k0 d reg)).
    assert (Hc : k ∈ ((k0, d) :: l).*1 <-> k = k0 \/ k ∈ l.*1).
    { rewrite fmap_cons. apply elem_of_cons. }
    rewrite IH, Value_Inc, lookup_Inc. simpl ShardMetrics.addedTo.
    destruct (decide (k0 = k)) as [->|Hne].
    + destruct (decide (k ∈ l.*1)) as [Hin|Hnot];
        destruct (decide (k ∈ ((k, d) :: l).*1)) as [_|Hn];
        try (exfalso; apply Hn, Hc; tauto).
      * f_equal. lia.
      * rewrite (addedTo_notin _ _ Hnot). f_equal. lia.
    + destruct (decide (k ∈ l.*1)) as [Hin|Hnot];
        destruct (decide (k ∈ ((k0, d) :: l).*1)) as [Hy|Hn];
        try reflexivity.
      * exfalso. apply Hn, Hc. tauto.
      * exfalso. apply Hc in Hy as [->|Hy]; contradiction.
Qed.

Lemma Value_IncAll l reg k :
  Tally.Value k (Tally.IncAll l reg)
  = Tally.Value k reg + ShardMetrics.addedTo k l.
Proof.
  unfold Tally.Value at 1. rewrite lookup_IncAll.
  destruct (decide (k ∈ l.*1)) as [_|Hnot]; [reflexivity|].
  rewrite (addedTo_notin _ _ Hnot), Z.add_0_r. reflexivity.
Qed.

Lemma IncAll_comm l1 l2 reg :
  Tally.IncAll l1 (Tally.IncAll l2 reg)
  = Tally.IncAll l2 (Tally.IncAll l1 reg).
Proof.
  apply map_eq. intros k. rewrite !lookup_IncAll, !Value_IncAll.
  destruct (decide (k ∈ l1.*1)) as [H1|H1];
    destruct (decide (k ∈ l2.*1)) as [H2|H2];
    rewrite ?(addedTo_notin _ _ H1), ?(addedTo_notin _ _ H2);
    try reflexivity; f_equal; lia.
Qed.

End TallyFacts.

(** ** [recordDifferences] *)

Section RecordFacts.

Context {Ident LocalMetadata Diff : Type}.
Variable idString : Ident -> string.
Variable diffNumSeries : Diff -> Z.
Variable diffNumBlocks : Diff -> Z.

Implicit Types (scope : Tally.Scope) (namespace : Ident)
               (shard : Shard.databaseShard Z LocalMetadata)
               (diffRes : Shard.MetadataComparisonResult Diff)
               (reg : gmap (string * gmap string string * string) Z).

(** The tags of the scope a counter of one shard lives in. *)
Lemma resultScope_tags scope namespace shard (rt : string) :
  let sc := ShardMetrics.resultScope rt
              (ShardMetrics.shardScope idString scope namespace shard) in
  Tally.tags sc !! "resultType" = Some rt /\
  Tally.tags sc !! "namespace" = Some (idString namespace) /\
  Tally.tags sc !! "shard" = Some (pretty (Shard.shard_ID shard)) /\
  forall x : string,
    x <> "resultType" -> x <> "namespace" -> x <> "shard" ->
    Tally.tags sc !! x = Tally.tags scope !! x.
Proof.
  intros sc. unfold sc, ShardMetrics.resultScope, ShardMetrics.shardScope,
    Tally.Tagged. cbn [Tally.tags].
  assert (Hrt : forall x : string,
            x <> "resultType" ->
            (<["resultType" := rt]> (∅ : gmap string string)) !! x = None).
  { intros x Hx. rewrite lookup_insert_ne by congruence. apply lookup_empty. }
  split; [|split; [|split]].
  - apply lookup_union_Some_l, lookup_insert_eq.
  - rewrite lookup_union_r by (apply Hrt; discriminate).
    apply lookup_union_Some_l, lookup_insert_eq.
  - rewrite lookup_union_r by (apply Hrt; discriminate).
    apply lookup_union_Some_l.
    rewrite lookup_insert_ne by discriminate. apply lookup_insert_eq.
  - intros x H1 H2 H3. rewrite lookup_union_r by (apply Hrt; exact H1).
    apply lookup_union_r.
    rewrite !lookup_insert_ne by congruence. apply lookup_empty.
Qed.

(** Counters of one shard differ when their result types or names do. *)
Lemma Counter_inj scope namespace shard (rt rt' n n' : string) :
  Tally.Counter
    (ShardMetrics.resultScope rt
       (ShardMetrics.shardScope idString scope namespace shard)) n
  = Tally.Counter
      (ShardMetrics.resultScope rt'
         (ShardMetrics.shardScope idString scope namespace shard)) n' ->
  rt = rt' /\ n = n'.
Proof.
  intros Heq. unfold Tally.Counter in Heq.
  assert (Htags := f_equal (fun p => snd (fst p)) Heq).
  assert (Hn := f_equal snd Heq).
  cbn [fst snd] in Htags, Hn.
  split; [|exact Hn].
  pose proof (proj1 (resultScope_tags scope namespace shard rt)) as H1.
  pose proof (proj1 (resultScope_tags scope namespace shard rt')) as H2.
  cbv zeta in H1, H2.
  rewrite Htags, H2 in H1. injection H1 as ->. reflexivity.
Qed.

Lemma recordDifferences_eq scope namespace shard diffRes reg (sd cd : Diff) :
  Shard.SizeDifferences diffRes = Some sd ->
  Shard.ChecksumDifferences diffRes = Some cd ->
  ShardMetrics.recordDifferences idString diffNumSeries diffNumBlocks
    scope namespace shard diffRes reg
  = (Returned tt,
     Tally.IncAll
       (ShardMetrics.increments idString diffNumSeries diffNumBlocks
          scope namespace shard (Shard.NumSeries diffRes)
          (Shard.NumBlocks diffRes) sd cd) reg).
Proof.
  intros Hs Hc. unfold ShardMetrics.recordDifferences. rewrite Hs, Hc.
  unfold ShardMetrics.increments, Tally.IncAll.
  cbn [foldl fst snd]. reflexivity.
Qed.

Ltac pick_counter :=
  repeat match goal with
    | |- context [decide (?a = ?b)] =>
        first
          [ rewrite (decide_False (P := a = b))
              by (let Hk := fresh in
                  intros Hk; apply Counter_inj in Hk as [? ?]; discriminate)
          | rewrite (decide_True (P := a = b)) by exact eq_refl ]
    end.

(** X15.  With both collections of differences present,
    [recordDifferences] returns after adding the two totals of the result
    and the series and block counts of its size and checksum differences
    to the six counters of the shard, three result types by two names;
    every other key of the registry, whatever its scope, tags and name,
    holds what it held. *)
Theorem recordDifferences_effect scope namespace shard diffRes reg
    (sd cd : Diff) :
  Shard.SizeDifferences diffRes = Some sd ->
  Shard.ChecksumDifferences diffRes = Some cd ->
  let sc := ShardMetrics.shardScope idString scope namespace shard in
  let counter (rt n : string) :=
    Tally.Counter (ShardMetrics.resultScope rt sc) n in
  let reg' :=
    snd (ShardMetrics.recordDifferences idString diffNumSeries diffNumBlocks
           scope namespace shard diffRes reg) in
  fst (ShardMetrics.recordDifferences idString diffNumSeries diffNumBlocks
         scope namespace shard diffRes reg) = Returned tt /\
  Tally.Value (counter "total" "series") reg'
  = Tally.Value (counter "total" "series") reg + Shard.NumSeries diffRes /\
  Tally.Value (counter "total" "blocks") reg'
  = Tally.Value (counter "total" "blocks") reg + Shard.NumBlocks diffRes /\
  Tally.Value (counter "sizeDiff" "series") reg'
  = Tally.Value (counter "sizeDiff" "series") reg + diffNumSeries sd /\
  Tally.Value (counter "sizeDiff" "blocks") reg'
  = Tally.Value (counter "sizeDiff" "blocks") reg + diffNumBlocks sd /\
  Tally.Value (counter "checksumDiff" "series") reg'
  = Tally.Value (counter "checksumDiff" "series") reg + diffNumSeries cd /\
  Tally.Value (counter "checksumDiff" "blocks") reg'
  = Tally.Value (counter "checksumDiff" "blocks") reg + diffNumBlocks cd /\
  (forall k : string * gmap string string * string,
      ~ In k [ counter "total" "series"; counter "total" "blocks";
               counter "sizeDiff" "series"; counter "sizeDiff" "blocks";
               counter "checksumDiff" "series";
               counter "checksumDiff" "blocks" ] ->
      reg' !! k = reg !! k).
Proof.
  intros Hs Hc sc counter reg'. unfold reg'.
  rewrite (recordDifferences_eq _ _ _ _ _ sd cd Hs Hc). cbn [fst snd].
  split; [reflexivity|].
  repeat (split;
          [rewrite Value_IncAll; unfold ShardMetrics.increments, counter, sc;
           cbn [ShardMetrics.addedTo foldr fst snd]; pick_counter; lia|]).
  intros k Hk. rewrite lookup_IncAll.
  destruct (decide (k ∈ _.*1)) as [Hin|_]; [|reflexivity].
  exfalso. apply Hk. unfold ShardMetrics.increments in Hin.
  rewrite !fmap_cons, fmap_nil in Hin. cbn [fst] in Hin.
  apply list_elem_of_In. exact Hin.
Qed.

(** X16.  Recordings commute: two results, for the same or for different
    shards and namespaces, leave the same registry whichever is recorded
    first. *)
Theorem recordDifferences_commute scope namespace1 namespace2 shard1 shard2
    diffRes1 diffRes2 reg (sd1 cd1 sd2 cd2 : Diff) :
  Shard.SizeDifferences diffRes1 = Some sd1 ->
  Shard.ChecksumDifferences diffRes1 = Some cd1 ->
  Shard.SizeDifferences diffRes2 = Some sd2 ->
  Shard.ChecksumDifferences diffRes2 = Some cd2 ->
  snd (ShardMetrics.recordDifferences idString diffNumSeries diffNumBlocks
         scope namespace2 shard2 diffRes2
         (snd (ShardMetrics.recordDifferences idString diffNumSeries
                 diffNumBlocks scope namespace1 shard1 diffRes1 reg)))
  = snd (ShardMetrics.recordDifferences idString diffNumSeries diffNumBlocks
           scope namespace1 shard1 diffRes1
           (snd (ShardMetrics.recordDifferences idString diffNumSeries
                   diffNumBlocks scope namespace2 shard2 diffRes2 reg))).
Proof.
  intros Hs1 Hc1 Hs2 Hc2.
  rewrite !(recordDifferences_eq _ _ _ diffRes1 _ sd1 cd1 Hs1 Hc1).
  rewrite !(recordDifferences_eq _ _ _ diffRes2 _ sd2 cd2 Hs2 Hc2).
  cbn [snd]. apply IncAll_comm.
Qed.

(** A counter that is none of the shard's is left alone on every path. *)
Lemma recordDifferences_frame scope namespace shard diffRes reg
    (k : string * gmap string string * string) :
  (forall rt n : string,
      k <> Tally.Counter
             (ShardMetrics.resultScope rt
                (ShardMetrics.shardScope idString scope namespace shard))
             n) ->
  snd (ShardMetrics.recordDifferences idString diffNumSeries diffNumBlocks
         scope namespace shard diffRes reg) !! k
  = reg !! k.
Proof.
  intros Hk. unfold ShardMetrics.recordDifferences.
  destruct (Shard.SizeDifferences diffRes) as [sd|];
    [destruct (Shard.ChecksumDifferences diffRes) as [cd|]|];
    cbv zeta; cbn [snd]; rewrite !lookup_Inc;
    repeat match goal with
      | |- context [decide (?a = k)] =>
          destruct (decide (a = k)) as [Heq|_];
          [exfalso; eapply Hk; symmetry; exact Heq|]
      end; reflexivity.
Qed.

(** X17.  Recording for one shard of one namespace never touches a counter
    of another shard or of another namespace, whatever the result holds and
    even when the call panics on a nil collection of differences. *)
Theorem recordDifferences_isolated scope namespace shard diffRes reg
    namespace' (shard' : Shard.databaseShard Z LocalMetadata)
    (rt n : string) :
  idString namespace' <> idString namespace \/
  Shard.shard_ID shard' <> Shard.shard_ID shard ->
  let k := Tally.Counter
             (ShardMetrics.resultScope rt
                (ShardMetrics.shardScope idString scope namespace' shard'))
             n in
  Tally.Value k
    (snd (ShardMetrics.recordDifferences idString diffNumSeries diffNumBlocks
            scope namespace shard diffRes reg))
  = Tally.Value k reg.
Proof.
  intros Hother k. unfold Tally.Value.
  rewrite recordDifferences_frame; [reflexivity|].
  intros rt0 n0 Heq. unfold k, Tally.Counter in Heq.
  assert (Htags := f_equal (fun p => snd (fst p)) Heq).
  cbn [fst snd] in Htags.
  destruct (resultScope_tags scope namespace' shard' rt) as (_ & Hn' & Hs' & _).
  destruct (resultScope_tags scope namespace shard rt0) as (_ & Hn & Hs & _).
  rewrite Htags in Hn', Hs'.
  destruct Hother as [Hne|Hne]; apply Hne.
  - rewrite Hn in Hn'. injection Hn' as ->. reflexivity.
  - rewrite Hs in Hs'. injection Hs' as Hp.
    apply (inj pretty). symmetry. exact Hp.
Qed.
End RecordFacts.

Lemma recordDifferences_effect_witness :
  Tally.Value
    (Tally.Counter
       (ShardMetrics.resultScope "sizeDiff"
          (ShardMetrics.shardScope (fun x : string => x) MoreSamples.hostScope
             "metrics" (ShardSamples.shard None))) "blocks")
    (snd (ShardMetrics.recordDifferences (fun x : string => x)
            (fun d : Z => d) (fun d : Z => 2 * d) MoreSamples.hostScope
            "metrics" (ShardSamples.shard None) MoreSamples.tenSeries ∅))
  = Tally.Value
      (Tally.Counter
         (ShardMetrics.resultScope "sizeDiff"
            (ShardMetrics.shardScope (fun x : string => x)
               MoreSamples.hostScope "metrics" (ShardSamples.shard None)))
         "blocks") ∅
    + 2 * 2 /\
  snd (ShardMetrics.recordDifferences (fun x : string => x)
         (fun d : Z => d) (fun d : Z => 2 * d) MoreSamples.hostScope
         "metrics" (ShardSamples.shard None) MoreSamples.tenSeries ∅)
  !! Tally.Counter
       (ShardMetrics.resultScope "total"
          (ShardMetrics.shardScope (fun x : string => x)
             MoreSamples.hostScope "metrics" (ShardSamples.shard None)))
       "bogus"
  = None.
Proof.
  destruct (recordDifferences_effect (fun x : string => x) (fun d : Z => d)
              (fun d : Z => 2 * d) MoreSamples.hostScope "metrics"
              (ShardSamples.shard None) MoreSamples.tenSeries ∅ 2 1
              eq_refl eq_refl) as (_ & _ & _ & _ & H & _ & _ & Hframe).
  split; [exact H|].
  rewrite Hframe; [apply lookup_empty|].
  intros Hin.
  repeat (destruct Hin as [Hin|Hin];
          [apply (f_equal snd) in Hin; cbn [snd Tally.Counter] in Hin;
           discriminate Hin|]).
  exact Hin.
Defined.

Lemma recordDifferences_commute_witness :
  snd (ShardMetrics.recordDifferences (fun x : string => x)
         (fun d : Z => d) (fun d : Z => 2 * d) MoreSamples.hostScope
         "logs" (ShardSamples.shard None) MoreSamples.tenSeries
         (snd (ShardMetrics.recordDifferences (fun x : string => x)
                 (fun d : Z => d) (fun d : Z => 2 * d) MoreSamples.hostScope
                 "metrics" (ShardSamples.shard None) MoreSamples.tenSeries
                 ∅)))
  = snd (ShardMetrics.recordDifferences (fun x : string => x)
           (fun d : Z => d) (fun d : Z => 2 * d) MoreSamples.hostScope
           "metrics" (ShardSamples.shard None) MoreSamples.tenSeries
           (snd (ShardMetrics.recordDifferences (fun x : string => x)
                   (fun d : Z => d) (fun d : Z => 2 * d)
                   MoreSamples.hostScope "logs" (ShardSamples.shard None)
                   MoreSamples.tenSeries ∅))).
Proof.
  apply (recordDifferences_commute (fun x : string => x) (fun d : Z => d)
           (fun d : Z => 2 * d) MoreSamples.hostScope "metrics" "logs"
           (ShardSamples.shard None) (ShardSamples.shard None)
           MoreSamples.tenSeries MoreSamples.tenSeries ∅ 2 1 2 1);
    reflexivity.
Defined.

Lemma recordDifferences_isolated_witness :
  Tally.Value
    (Tally.Counter
       (ShardMetrics.resultScope "total"
          (ShardMetrics.shardScope (fun x : string => x) MoreSamples.hostScope
             "logs" (ShardSamples.shard None))) "series")
    (snd (ShardMetrics.recordDifferences (fun x : string => x)
            (fun d : Z => d) (fun d : Z => 2 * d) MoreSamples.hostScope
            "metrics" (ShardSamples.shard None) MoreSamples.tenSeries ∅))
  = Tally.Value
      (Tally.Counter
         (ShardMetrics.resultScope "total"
            (ShardMetrics.shardScope (fun x : string => x)
               MoreSamples.hostScope "logs" (ShardSamples.shard None)))
         "series") ∅.
Proof.
  apply (recordDifferences_isolated (fun x : string => x) (fun d : Z => d)
           (fun d : Z => 2 * d) MoreSamples.hostScope "metrics"
           (ShardSamples.shard None) MoreSamples.tenSeries ∅ "logs"
           (ShardSamples.shard None) "total" "series").
  left. discriminate.
Defined.

(** ** Construction *)

Section ConstructFacts.

Context {World Host Ident ShardID LocalMetadata PeerIter Comparer Diff
         Options : Type}.
Variable drawJitter : Duration -> Time -> Duration.

Implicit Types
  (database : Db.database World
                (Construct.scopedShardRepairer Host Ident ShardID
                   LocalMetadata PeerIter Comparer Diff Options))
  (nowFn : World -> Time) (rtopts : retentionOptions)
  (ropts : option Construct.repairOptions)
  (hostname : error + string) (metricsScope : Tally.Scope)
  (rpopts : Options)
  (client : error + Shard.AdminSession Host Ident ShardID PeerIter)
  (cmp : Shard.comparerOps Host LocalMetadata PeerIter Comparer Diff Options)
  (w : World).


(** X18.  [newShardRepairer] fails exactly when the host name cannot be
    had, with the error of the lookup.  Otherwise the repairer compares
    windows of one retention block, and every counter it records to lies
    under the sub-scope [database.repair] of the metrics scope and carries
    the host name, the namespace, the shard number in decimal and the
    result type as tags. *)
Theorem newShardRepairer_scope (idString : Ident -> string)
    hostname metricsScope rpopts client cmp rtopts :
  (forall err : error,
      hostname = inl err ->
      Construct.newShardRepairer hostname metricsScope rpopts client cmp
        rtopts = inl err) /\
  (forall h : string,
      hostname = inr h ->
      exists sr,
        Construct.newShardRepairer hostname metricsScope rpopts client cmp
          rtopts = inr sr /\
        Shard.blockSize (Construct.base sr) = BlockSize rtopts /\
        forall (namespace : Ident)
               (shard : Shard.databaseShard Z LocalMetadata) (rt : string),
          let sc := ShardMetrics.resultScope rt
                      (ShardMetrics.shardScope idString (Construct.scope sr)
                         namespace shard) in
          Tally.prefix sc
          = Tally.prefix (Tally.SubScope "database.repair" metricsScope) /\
          Tally.tags sc !! "host" = Some h /\
          Tally.tags sc !! "namespace" = Some (idString namespace) /\
          Tally.tags sc !! "shard" = Some (pretty (Shard.shard_ID shard)) /\
          Tally.tags sc !! "resultType" = Some rt).
Proof.
  split.
  - intros err ->. reflexivity.
  - intros h ->. eexists. split; [reflexivity|]. split; [reflexivity|].
    intros namespace shard rt sc.
    destruct (resultScope_tags idString
                (Tally.Tagged (<["host" := h]> ∅)
                   (Tally.SubScope "database.repair" metricsScope))
                namespace shard rt) as (Hrt & Hns & Hsh & Hother).
    split; [reflexivity|].
    split; [|split; [exact Hns | split; [exact Hsh | exact Hrt]]].
    unfold sc. cbn [Construct.scope].
    rewrite Hother by discriminate.
    unfold Tally.Tagged. cbn [Tally.tags].
    apply lookup_union_Some_l, lookup_insert_eq.
Qed.

(** X19.  [newDatabaseRepairer] fails with [errNoRepairOptions] when there
    are no repair options, whatever else holds; with the error of
    [Validate] when they are invalid; and with the error of the host name
    lookup when they are valid.  The repairer it returns otherwise is idle
    and not closed, its ledger is empty, so that every timestamp needs
    repair, it takes its scheduling parameters from the options, and its
    jitter is zero unless the options ask for a positive one. *)
Theorem newDatabaseRepairer_outcome database nowFn rtopts ropts hostname
    metricsScope rpopts client cmp w :
  let res := Construct.newDatabaseRepairer drawJitter database nowFn rtopts
               ropts hostname metricsScope rpopts client cmp w in
  (ropts = None -> res = inl errNoRepairOptions) /\
  (forall o (err : error),
      ropts = Some o -> Construct.Validate o = Some err -> res = inl err) /\
  (forall o (err : error),
      ropts = Some o -> Construct.Validate o = None ->
      hostname = inl err -> res = inl err) /\
  (forall r,
      res = inr r ->
      exists o,
        ropts = Some o /\ Construct.Validate o = None /\
        Db.repairStates r = ∅ /\ Db.running r = 0 /\ Db.closed r = false /\
        (forall t : Time, Db.needsRepair r t = true) /\
        Db.rtopts r = rtopts /\
        Db.repairInterval r = Construct.RepairInterval o /\
        Db.repairTimeOffset r = Construct.RepairTimeOffset o /\
        Db.repairCheckInterval r = Construct.RepairCheckInterval o /\
        Db.repairMaxRetries r = Construct.RepairMaxRetries o /\
        (Construct.RepairTimeJitter o <= 0 -> Db.repairTimeJitter r = 0)).
Proof.
  intros res. unfold res, Construct.newDatabaseRepairer.
  split; [intros ->; reflexivity|].
  split; [intros o err -> ->; reflexivity|].
  split; [intros o err -> -> ->; reflexivity|].
  intros r Hr. destruct ropts as [o|]; [|discriminate].
  destruct (Construct.Validate o) as [e|] eqn:Hv; [discriminate|].
  destruct hostname as [e|h]; [discriminate|].
  cbn in Hr. injection Hr as <-.
  exists o.
  split; [reflexivity|]. split; [exact Hv|].
  split; [reflexivity|]. split; [reflexivity|]. split; [reflexivity|].
  split.
  { intros t. unfold Db.needsRepair. cbn [Db.repairStates].
    rewrite lookup_empty. reflexivity. }
  split; [reflexivity|]. split; [reflexivity|]. split; [reflexivity|].
  split; [reflexivity|]. split; [reflexivity|].
  intros Hj. cbn [Db.repairTimeJitter].
  destruct (Z.ltb_spec 0 (Construct.RepairTimeJitter o)); [lia|reflexivity].
Qed.


End ConstructFacts.

Lemma newShardRepairer_scope_witness :
  exists sr : Construct.scopedShardRepairer string string Z (list Z) (list Z)
                (list Z * list Z) unit unit,
    Construct.newShardRepairer (inr "node-a"%string) (Tally.mkScope "" ∅) tt
      (inr (ShardSamples.session (inr [4; 9]))) ShardSamples.ops
      (mkRetentionOptions 10 50 10)
    = inr sr /\
    Shard.blockSize (Construct.base sr) = 10.
Proof.
  destruct (proj2 (newShardRepairer_scope (fun x : string => x)
                     (inr "node-a"%string) (Tally.mkScope "" ∅) tt
                     (inr (ShardSamples.session (inr [4; 9])))
                     ShardSamples.ops (mkRetentionOptions 10 50 10))
              "node-a"%string eq_refl) as (sr & Heq & Hbs & _).
  exists sr. split; [exact Heq | exact Hbs].
Defined.

Lemma newDatabaseRepairer_outcome_witness :
  MoreSamples.built None (inr "node-a"%string) = inl errNoRepairOptions /\
  MoreSamples.built (Some (MoreSamples.dailyOptions
                             (Some (errExternal "bad interval"))))
    (inl (errExternal "no host name"))
  = inl (errExternal "bad interval").
Proof.
  split.
  - apply (proj1 (newDatabaseRepairer_outcome (fun d _ => d / 2)
                    MoreSamples.scopedDb (fun _ => 105)
                    (mkRetentionOptions 10 50 10) None
                    (inr "node-a"%string) (Tally.mkScope "" ∅) tt
                    (inr (ShardSamples.session (inr [4; 9])))
                    ShardSamples.ops tt)).
    reflexivity.
  - apply (proj1 (proj2 (newDatabaseRepairer_outcome (fun d _ => d / 2)
                    MoreSamples.scopedDb (fun _ => 105)
                    (mkRetentionOptions 10 50 10)
                    (Some (MoreSamples.dailyOptions
                             (Some (errExternal "bad interval"))))
                    (inl (errExternal "no host name"))
                    (Tally.mkScope "" ∅) tt
                    (inr (ShardSamples.session (inr [4; 9])))
                    ShardSamples.ops tt))
             (MoreSamples.dailyOptions (Some (errExternal "bad interval")))
             (errExternal "bad interval")); reflexivity.
Defined.

